(** * TensorStreamDataset (CN24): a shallow embedding of
      [src/util/TensorStreamDataset.cpp] and the properties of its
      construction protocol, sample accessors and configuration loader. *)

From Stdlib Require Import NArith String Ascii Bool Lia.
From stdpp Require Import base numbers list.

Local Open Scope N_scope.

(** ** Machine integers

    Counters, indices and loop variables of the source are [unsigned int];
    they are carried as [N] and every arithmetic step of the source is
    followed by [wrap]. *)

Definition uint_modulus : N := 2 ^ 32.

Definition wrap (n : N) : N := n mod uint_modulus.

(** Modelled from the spec: the [FATAL] macro (Log.h) is not part of the
    sources; a fatal condition means the component cannot proceed and the
    construction does not complete.  [Fatal] is that result, [OutOfBounds]
    an access outside an allocation, [Diverges] a loop whose exit test can
    never become true. *)
Inductive outcome (A : Type) : Type :=
  | Done (a : A)
  | Fatal (msg : string)
  | OutOfBounds
  | Diverges.

Arguments Done {A} a.
Arguments Fatal {A} msg.
Arguments OutOfBounds {A}.
Arguments Diverges {A}.

(** [for (unsigned int t = lo; t < hi; t++) body] with [n = hi - lo]
    iterations left; [hi] is an [unsigned int], so [t + 1] never wraps
    before the exit test fails. *)
Fixpoint for_loop {St : Type} (n : nat) (t : N)
    (body : N -> St -> outcome St) (st : St) : outcome St :=
  match n with
  | O => Done st
  | S n' =>
      match body t st with
      | Done st' => for_loop n' (t + 1) body st'
      | Fatal msg => Fatal msg
      | OutOfBounds => OutOfBounds
      | Diverges => Diverges
      end
  end.

Section Dataset.

(** [datum] is the numeric cell type of the build (Config.h); the dataset
    only stores and copies cells, so the type is left open, together with
    the conversion of an integer literal to it. *)
Variable datum : Type.
Variable datum_of_int : Z -> datum.

(** Content of a cell that was allocated and not yet written. *)
Variable fresh_cell : datum.

(** ** Tensor *)

(** Modelled from the spec: the [Tensor] class (Tensor.h, Tensor.cpp) is not
    part of the sources.  A tensor is an owned, shape-described numeric array
    with dimensions sample-count, width, height and channel-count (maps),
    from which the element count is recovered. *)
Record Tensor : Type := mkTensor {
  samples : N;
  width : N;
  height : N;
  maps : N;
  cells : list datum
}.

(** Modelled from the spec: the element count recovered from the shape. *)
Definition elements (t : Tensor) : N :=
  samples t * width t * height t * maps t.

(** Modelled from the spec: a default-constructed tensor holds nothing, the
    zero-element result that ends a record stream. *)
Definition Tensor_new : Tensor := mkTensor 0 0 0 0 [].

(** Modelled from the spec: [Resize (samples, width, height, maps)] gives the
    tensor that shape; the cells of the new allocation are not initialised. *)
Definition Resize (s w h m : N) : Tensor :=
  mkTensor s w h m (replicate (N.to_nat (s * w * h * m)) fresh_cell).

(** Modelled from the spec: position of cell [(x, y)] of map [map] of sample
    [sample] in the cell array (row-major, maps within samples). *)
Definition Offset (t : Tensor) (x y map sample : N) : N :=
  sample * (width t * height t * maps t)
  + map * (width t * height t) + y * width t + x.

(** Modelled from the spec: [*t.data_ptr(x,y) = v], a write to the cell of
    coordinate [(x, y)] in the first map of the first sample. *)
Definition write_cell (t : Tensor) (x y : N) (v : datum) : Tensor :=
  mkTensor (samples t) (width t) (height t) (maps t)
           (<[N.to_nat (Offset t x y 0 0) := v]> (cells t)).

(** Modelled from the spec: [*t.data_ptr(x,y)] as a read. *)
Definition cell (t : Tensor) (x y : N) : option datum :=
  cells t !! N.to_nat (Offset t x y 0 0).

(** Modelled from the spec: the sample-copy primitive is an external
    collaborator.  [CopySample source source_sample target target_sample]
    returns its success flag and the target tensor as it leaves it; the
    source is taken by constant reference. *)
Variable CopySample : Tensor -> N -> Tensor -> N -> bool * Tensor.

(** ** Record streams *)

(** Modelled from the spec: a record stream is an ordered sequence of
    serialized tensor records with no count prefix, read through a
    [std::istream] with a read position and an end-of-data flag. *)
Record istream : Type := mkStream {
  records : list Tensor;
  gpos : nat;
  eofbit : bool
}.

Definition open_stream (recs : list Tensor) : istream := mkStream recs 0 false.

Definition eof (s : istream) : bool := eofbit s.

Definition clear (s : istream) : istream := mkStream (records s) (gpos s) false.

Definition seekg_beg (s : istream) : istream :=
  mkStream (records s) 0 (eofbit s).

(** Modelled from the spec: [tensor.Deserialize (stream)] decodes the next
    record into the tensor; when no record is left the stream reaches
    end-of-data and the decode result has zero elements. *)
Definition Deserialize (s : istream) : Tensor * istream :=
  match records s !! gpos s with
  | Some t => (t, mkStream (records s) (S (gpos s)) (eofbit s))
  | None => (Tensor_new, mkStream (records s) (gpos s) true)
  end.

(** The counting loop of the constructor:
    [while (!stream.eof()) { tensor.Deserialize(stream);
       if (tensor.elements() == 0) break; count++; }].
    Every iteration that does not leave the loop consumes one record, so
    one more iteration than there are records left always suffices. *)
Fixpoint count_loop (fuel : nat) (s : istream) (count : N) : N * istream :=
  match fuel with
  | O => (count, s)
  | S fuel' =>
      if eof s then (count, s)
      else
        let '(tensor, s') := Deserialize s in
        if elements tensor =? 0 then (count, s')
        else count_loop fuel' s' (wrap (count + 1))
  end.

Definition count_tensors (s : istream) (count : N) : N * istream :=
  count_loop (S (length (records s) - gpos s)) s count.

(** What the spec calls the record count of a stream: the records met before
    the first zero-element decode result or the end of the data. *)
Fixpoint valid_records (l : list Tensor) : list Tensor :=
  match l with
  | [] => []
  | t :: rest => if elements t =? 0 then [] else t :: valid_records rest
  end.

Definition record_count (s : istream) : nat :=
  if eofbit s then O else length (valid_records (drop (gpos s) (records s))).

(** The pairs of a record sequence: data first, its label second. *)
Fixpoint pairs (l : list Tensor) : list (Tensor * Tensor) :=
  match l with
  | d :: lab :: rest => (d, lab) :: pairs rest
  | _ => []
  end.

(** The same count as the [unsigned int] counter holds it. *)
Definition counted (s : istream) : N := wrap (N.of_nat (record_count s)).

(** ** The corpus *)

(** The error-weighting function handed to the constructor
    ([dataset_localized_error_function]): pixel coordinate to weight. *)
Definition dataset_localized_error_function : Type := N -> N -> datum.

(** [datum DefaultLocalizedErrorFunction (unsigned int x, unsigned int y)] *)
Definition DefaultLocalizedErrorFunction : dataset_localized_error_function :=
  fun x y => datum_of_int 1.

Inductive Task : Type := SEMANTIC_SEGMENTATION.

(** The members of [TensorStreamDataset]. *)
Record TensorStreamDataset : Type := mkDataset {
  classes_ : N;
  class_names_ : list string;
  tensor_count_training_ : N;
  tensor_count_testing_ : N;
  tensors_ : N;
  data_ : list Tensor;
  labels_ : list Tensor;
  input_maps_ : N;
  label_maps_ : N;
  error_cache : Tensor
}.

(** The two arrays being filled and the stream being replayed. *)
Definition pool : Type := (list Tensor * list Tensor * istream)%type.

(** Body of the two replay loops:
    [data_[t].Deserialize (stream); labels_[t].Deserialize (stream);]
    on arrays allocated with [tensors_] slots. *)
Definition read_pair (t : N) (st : pool) : outcome pool :=
  let '(data, labels, stream) := st in
  match data !! N.to_nat t with
  | None => OutOfBounds
  | Some _ =>
      let '(d, stream) := Deserialize stream in
      match labels !! N.to_nat t with
      | None => OutOfBounds
      | Some _ =>
          let '(l, stream) := Deserialize stream in
          Done (<[N.to_nat t := d]> data, <[N.to_nat t := l]> labels, stream)
      end
  end.

(** What a replay loop of [n] passes reads from a stream: [n] pairs, the
    first record of each pair being the data, the second its label. *)
Fixpoint replay (n : nat) (stream : istream)
    : list (Tensor * Tensor) * istream :=
  match n with
  | O => ([], stream)
  | S n' =>
      let '(d, stream) := Deserialize stream in
      let '(l, stream) := Deserialize stream in
      let '(ps, stream) := replay n' stream in
      ((d, l) :: ps, stream)
  end.

(** A stream after [clear ()] and [seekg (0, std::ios::beg)]. *)
Definition rewound (s : istream) : istream := mkStream (records s) 0 false.

(** [for (unsigned int x = 0; x < hi; x++) body] where the bound is a tensor
    dimension: an [unsigned int] counter stays below every bound of [2^32]
    or more, so the exit test never fails.  The bodies run under it (a cell
    write, a row of cell writes) do not fail. *)
Definition for_dimension {St : Type} (hi : N)
    (body : N -> St -> outcome St) (st : St) : outcome St :=
  if uint_modulus <=? hi then Diverges
  else for_loop (N.to_nat hi) 0 body st.

(** The error cache of the constructor:
    [error_cache.Resize (1, width, height, 1)] followed by
    [for y < height: for x < width: *error_cache.data_ptr(x,y) = error_function(x,y)]. *)
Definition prepare_error_cache (first : Tensor)
    (error_function : dataset_localized_error_function) : outcome Tensor :=
  let cache := Resize 1 (width first) (height first) 1 in
  for_dimension (height first)
    (fun y cache =>
       for_dimension (width first)
         (fun x cache => Done (write_cell cache x y (error_function x y)))
         cache)
    cache.

(** [TensorStreamDataset::TensorStreamDataset].  The two counters start at
    zero (their initialisers are in Dataset.h, which is not part of the
    sources; the spec has the scan return the record count of the stream);
    the streams are caller-owned and their final state is dropped. *)
Definition construct (training_stream testing_stream : istream)
    (classes : N) (class_names : list string)
    (error_function : dataset_localized_error_function)
    : outcome TensorStreamDataset :=
  let '(tensor_count_training, training_stream) :=
    count_tensors training_stream 0 in
  if negb (N.land tensor_count_training 1 =? 0) then
    Fatal "Odd training tensor count!"
  else
  let '(tensor_count_testing, testing_stream) :=
    count_tensors testing_stream 0 in
  if negb (N.land tensor_count_testing 1 =? 0) then
    Fatal "Odd testing tensor count!"
  else
  let tensors := wrap (tensor_count_testing + tensor_count_training) / 2 in
  let training_stream := seekg_beg (clear training_stream) in
  let testing_stream := seekg_beg (clear testing_stream) in
  let data := replicate (N.to_nat tensors) Tensor_new in
  let labels := replicate (N.to_nat tensors) Tensor_new in
  match for_loop (N.to_nat (tensor_count_training / 2)) 0
                 read_pair (data, labels, training_stream) with
  | Done (data, labels, _) =>
      match for_loop (N.to_nat (tensors - tensor_count_training / 2))
                     (tensor_count_training / 2)
                     read_pair (data, labels, testing_stream) with
      | Done (data, labels, _) =>
          match data !! O, labels !! O with
          | Some first_data, Some first_label =>
              match prepare_error_cache first_data error_function with
              | Done cache =>
                  Done (mkDataset classes class_names
                          tensor_count_training tensor_count_testing tensors
                          data labels
                          (wrap (maps first_data)) (wrap (maps first_label))
                          cache)
              | Fatal msg => Fatal msg
              | OutOfBounds => OutOfBounds
              | Diverges => Diverges
              end
          | _, _ => OutOfBounds
          end
      | Fatal msg => Fatal msg
      | OutOfBounds => OutOfBounds
      | Diverges => Diverges
      end
  | Fatal msg => Fatal msg
  | OutOfBounds => OutOfBounds
  | Diverges => Diverges
  end.

(** ** Read-only accessors *)

Definition GetTask (this : TensorStreamDataset) : Task := SEMANTIC_SEGMENTATION.





Definition GetClasses (this : TensorStreamDataset) : N := classes_ this.

Definition GetClassNames (this : TensorStreamDataset) : list string :=
  class_names_ this.

Definition GetTrainingSamples (this : TensorStreamDataset) : N :=
  tensor_count_training_ this / 2.

Definition GetTestingSamples (this : TensorStreamDataset) : N :=
  tensor_count_testing_ this / 2.

Definition SupportsTesting (this : TensorStreamDataset) : bool :=
  0 <? tensor_count_testing_ this.

(** ** Sample accessors *)

(** What a sample accessor leaves behind: its return value, the three
    caller-owned destination tensors and the corpus itself (the accessors
    are not [const] member functions). *)
Record sample_result : Type := mkResult {
  success : bool;
  data_tensor' : Tensor;
  label_tensor' : Tensor;
  weight_tensor' : Tensor;
  this' : TensorStreamDataset
}.

(** The three copies shared by both accessors, from pool position [i]:
    [success &= Tensor::CopySample (...)] three times, without short cut. *)
Definition copy_sample_from (this : TensorStreamDataset) (i : N)
    (data_tensor label_tensor weight_tensor : Tensor) (sample : N)
    : outcome sample_result :=
  let success := true in
  match data_ this !! N.to_nat i with
  | None => OutOfBounds
  | Some d =>
      let '(ok, data_tensor) := CopySample d 0 data_tensor sample in
      let success := success && ok in
      match labels_ this !! N.to_nat i with
      | None => OutOfBounds
      | Some l =>
          let '(ok, label_tensor) := CopySample l 0 label_tensor sample in
          let success := success && ok in
          let '(ok, weight_tensor) :=
            CopySample (error_cache this) 0 weight_tensor sample in
          let success := success && ok in
          Done (mkResult success data_tensor label_tensor weight_tensor this)
      end
  end.

(** [TensorStreamDataset::GetTrainingSample] *)
Definition GetTrainingSample (this : TensorStreamDataset)
    (data_tensor label_tensor weight_tensor : Tensor) (sample index : N)
    : outcome sample_result :=
  if index <? tensor_count_training_ this / 2 then
    copy_sample_from this index data_tensor label_tensor weight_tensor sample
  else Done (mkResult false data_tensor label_tensor weight_tensor this).

(** [TensorStreamDataset::GetTestingSample] *)
Definition GetTestingSample (this : TensorStreamDataset)
    (data_tensor label_tensor weight_tensor : Tensor) (sample index : N)
    : outcome sample_result :=
  if index <? tensor_count_testing_ this / 2 then
    let test_index := wrap (tensor_count_training_ this / 2 + index) in
    copy_sample_from this test_index
                     data_tensor label_tensor weight_tensor sample
  else Done (mkResult false data_tensor label_tensor weight_tensor this).

(** The result of the three copies from the pool pair [(d, l)]: the flag is
    the conjunction of the three results and every destination is what its
    own copy left. *)
Definition copies (this : TensorStreamDataset) (d l : Tensor)
    (data_tensor label_tensor weight_tensor : Tensor) (sample : N)
    : sample_result :=
  mkResult ((CopySample d 0 data_tensor sample).1
            && (CopySample l 0 label_tensor sample).1
            && (CopySample (error_cache this) 0 weight_tensor sample).1)
           (CopySample d 0 data_tensor sample).2
           (CopySample l 0 label_tensor sample).2
           (CopySample (error_cache this) 0 weight_tensor sample).2
           this.

(** A training loop seen from the corpus: a sequence of sample requests,
    each with its own destinations. *)
Inductive request : Type :=
  | training_request (data_tensor label_tensor weight_tensor : Tensor)
                     (sample index : N)
  | testing_request (data_tensor label_tensor weight_tensor : Tensor)
                    (sample index : N).

Definition serve (this : TensorStreamDataset) (r : request)
    : outcome sample_result :=
  match r with
  | training_request dt lt wt sample index =>
      GetTrainingSample this dt lt wt sample index
  | testing_request dt lt wt sample index =>
      GetTestingSample this dt lt wt sample index
  end.

(** The corpus after a sequence of requests. *)
Fixpoint serve_all (this : TensorStreamDataset) (rs : list request)
    : outcome TensorStreamDataset :=
  match rs with
  | [] => Done this
  | r :: rs =>
      match serve this r with
      | Done res => serve_all (this' res) rs
      | Fatal msg => Fatal msg
      | OutOfBounds => OutOfBounds
      | Diverges => Diverges
      end
  end.

(** ** Configuration loader *)

(** [KITTIData::LocalizedError] (KITTIData.h) is not part of the sources. *)
Variable KITTIData_LocalizedError : dataset_localized_error_function.

(** The local [error_function] of [CreateFromConfiguration] points to one of
    two named functions. *)
Inductive named_error_function : Type :=
  | name_DefaultLocalizedErrorFunction
  | name_KITTIData_LocalizedError.

Definition function_named (f : named_error_function)
    : dataset_localized_error_function :=
  match f with
  | name_DefaultLocalizedErrorFunction => DefaultLocalizedErrorFunction
  | name_KITTIData_LocalizedError => KITTIData_LocalizedError
  end.

(** Modelled from the spec: ConfigParsing.h is not part of the sources.  A
    directive line is its identifier, one separating character and a value;
    [StartsWithIdentifier] recognises the identifier at the start of a line. *)
Definition StartsWithIdentifier (line identifier : string) : bool :=
  String.prefix identifier line.

(** Modelled from the spec: the text that follows the identifier and its
    separator, when the line is such a directive and that text is not empty. *)
Definition directive_value (line identifier : string) : option string :=
  if String.prefix identifier line
     && (String.length identifier + 1 <? String.length line)%nat
  then Some (String.substring (String.length identifier + 1)
               (String.length line - (String.length identifier + 1)) line)
  else None.

(** Modelled from the spec: [ParseStringIfPossible (line, identifier, value)]
    stores the directive's value in [value] and leaves [value] alone on any
    other line. *)
Definition ParseStringIfPossible (line identifier value : string) : string :=
  match directive_value line identifier with
  | Some v => v
  | None => value
  end.

(** Modelled from the spec: the decimal number a count directive starts
    with. *)
Definition digit_value (c : ascii) : option N :=
  let n := N_of_ascii c in
  if (48 <=? n) && (n <=? 57) then Some (n - 48) else None.

Fixpoint leading_number (s : string) (acc : N) : N :=
  match s with
  | EmptyString => acc
  | String c rest =>
      match digit_value c with
      | Some d => leading_number rest (10 * acc + d)
      | None => acc
      end
  end.

(** Modelled from the spec: [ParseCountIfPossible (line, identifier, value)]
    reads the count [N] of a [classes <N>] directive into the
    [unsigned int] [value]. *)
Definition ParseCountIfPossible (line identifier : string) (value : N) : N :=
  match directive_value line identifier with
  | Some v => wrap (leading_number v 0)
  | None => value
  end.

(** The locals of [CreateFromConfiguration] that reach the constructor. *)
Record configuration : Type := mkConfiguration {
  classes : N;
  class_names : list string;
  error_function : named_error_function;
  training_file : string;
  testing_file : string
}.

(** [for (c = 0; c < classes; c++) { std::getline (file, class_name);
      class_names.push_back (class_name); }]: a [getline] past the end of
    the file leaves [class_name] empty. *)
Fixpoint read_class_names (n : nat) (file : list string)
    (names : list string) : list string * list string :=
  match n with
  | O => (names, file)
  | S n' =>
      match file with
      | [] => read_class_names n' [] (names ++ [EmptyString])
      | class_name :: file => read_class_names n' file (names ++ [class_name])
      end
  end.

(** The branch on the name given to [localized_error]:
    [compare ("kitti") == 0], else [compare ("default")] taken as a
    condition, which holds when the name differs from ["default"]. *)
Definition select_error_function (error_function_name : string)
    (current : named_error_function) : named_error_function :=
  if String.eqb error_function_name "kitti" then name_KITTIData_LocalizedError
  else if negb (String.eqb error_function_name "default")
  then name_DefaultLocalizedErrorFunction
  else current.

(** One pass of the [while (!file.eof ())] loop on the line just read; the
    file is the list of lines [getline] still has to deliver. *)
Definition configuration_line (line : string) (file : list string)
    (cfg : configuration) : configuration * list string :=
  let '(cfg, file) :=
    if StartsWithIdentifier line "classes" then
      let n := ParseCountIfPossible line "classes" (classes cfg) in
      if negb (n =? 0) then
        let '(names, file) :=
          read_class_names (N.to_nat n) file (class_names cfg) in
        (mkConfiguration n names (error_function cfg)
           (training_file cfg) (testing_file cfg), file)
      else
        (mkConfiguration n (class_names cfg) (error_function cfg)
           (training_file cfg) (testing_file cfg), file)
    else (cfg, file) in
  let cfg :=
    if StartsWithIdentifier line "localized_error" then
      let error_function_name :=
        ParseStringIfPossible line "localized_error" EmptyString in
      mkConfiguration (classes cfg) (class_names cfg)
        (select_error_function error_function_name (error_function cfg))
        (training_file cfg) (testing_file cfg)
    else cfg in
  (mkConfiguration (classes cfg) (class_names cfg) (error_function cfg)
     (ParseStringIfPossible line "training" (training_file cfg))
     (ParseStringIfPossible line "testing" (testing_file cfg)), file).

(** The loop itself; every pass consumes at least the line it reads, so as
    many passes as the file has lines always suffice. *)
Fixpoint configuration_loop (fuel : nat) (file : list string)
    (cfg : configuration) : configuration :=
  match fuel with
  | O => cfg
  | S fuel' =>
      match file with
      | [] => cfg
      | line :: file =>
          let '(cfg, file) := configuration_line line file cfg in
          configuration_loop fuel' file cfg
      end
  end.

Definition read_configuration_from (file : list string)
    (cfg : configuration) : configuration :=
  configuration_loop (length file) file cfg.

(** The loop from the initial values of the locals. *)
Definition read_configuration (file : list string) : configuration :=
  read_configuration_from file
    (mkConfiguration 0 [] name_DefaultLocalizedErrorFunction
       EmptyString EmptyString).

(** [TensorStreamDataset::CreateFromConfiguration]; [open_file] is what
    [std::ifstream] delivers for a path. *)
Definition CreateFromConfiguration (open_file : string -> istream)
    (file : list string) : outcome TensorStreamDataset :=
  let cfg := read_configuration file in
  construct (open_file (training_file cfg)) (open_file (testing_file cfg))
    (classes cfg) (class_names cfg) (function_named (error_function cfg)).

(** ** Predicates of the proofs *)

(** Records a stream still has ahead of its read position. *)
Definition remaining (s : istream) : nat := length (records s) - gpos s.

(** The cache while it is being filled: its shape, and the first [k] cells
    in row-major order already hold their weight. *)
Definition filled (w h : N) (error_function : dataset_localized_error_function)
    (k : N) (cache : Tensor) : Prop :=
  samples cache = 1 /\ width cache = w /\ height cache = h /\ maps cache = 1
  /\ length (cells cache) = N.to_nat (w * h)
  /\ forall o, o < k ->
       cells cache !! N.to_nat o = Some (error_function (o mod w) (o / w)).

(** The corpus the constructor leaves when nothing stops it. *)
Definition built (training_stream testing_stream : istream)
    (cl : N) (names : list string) (first_data first_label cache : Tensor)
    : TensorStreamDataset :=
  let a := counted training_stream in
  let b := counted testing_stream in
  let pairs := (replay (N.to_nat (a / 2)) (rewound training_stream)).1
               ++ (replay (N.to_nat (b / 2)) (rewound testing_stream)).1 in
  mkDataset cl names a b (a / 2 + b / 2) pairs.*1 pairs.*2
            (wrap (maps first_data)) (wrap (maps first_label)) cache.

(** What holds of every corpus the constructor completes. *)
Record constructed (tr te : istream) (cl : N) (names : list string)
    (ef : dataset_localized_error_function) (c : TensorStreamDataset)
    : Prop := mkConstructed {
  con_training_even : counted tr mod 2 = 0;
  con_testing_even : counted te mod 2 = 0;
  con_sum : counted tr + counted te < uint_modulus;
  con_training : tensor_count_training_ c = counted tr;
  con_testing : tensor_count_testing_ c = counted te;
  con_tensors : tensors_ c = counted tr / 2 + counted te / 2;
  con_data :
    data_ c = ((replay (N.to_nat (counted tr / 2)) (rewound tr)).1
               ++ (replay (N.to_nat (counted te / 2)) (rewound te)).1).*1;
  con_labels :
    labels_ c = ((replay (N.to_nat (counted tr / 2)) (rewound tr)).1
                 ++ (replay (N.to_nat (counted te / 2)) (rewound te)).1).*2;
  con_classes : classes_ c = cl;
  con_class_names : class_names_ c = names;
  con_first :
    exists first_data first_label,
      data_ c !! O = Some first_data /\ labels_ c !! O = Some first_label
      /\ input_maps_ c = wrap (maps first_data)
      /\ label_maps_ c = wrap (maps first_label)
      /\ prepare_error_cache first_data ef = Done (error_cache c)
}.

(** The pool of a completed corpus: as many slots as there are pairs, the
    same number in both arrays, and a pair count an [unsigned int] holds. *)
Definition well_formed (c : TensorStreamDataset) : Prop :=
  length (data_ c)
    = N.to_nat (tensor_count_training_ c / 2 + tensor_count_testing_ c / 2)
  /\ length (labels_ c) = length (data_ c)
  /\ tensor_count_training_ c / 2 + tensor_count_testing_ c / 2
     < uint_modulus.

(** Tensor dimensions an [unsigned int] counter can reach. *)
Definition countable_extent (t : Tensor) : Prop :=
  width t < uint_modulus /\ height t < uint_modulus.

(** ** Properties *)

(** *** Unsigned arithmetic *)

Lemma uint_modulus_pos : 0 < uint_modulus.
Proof. reflexivity. Qed.

Lemma wrap_lt (n : N) : wrap n < uint_modulus.
Proof. apply N.mod_upper_bound. discriminate. Qed.

Lemma wrap_small (n : N) : n < uint_modulus -> wrap n = n.
Proof. apply N.mod_small. Qed.

Lemma wrap_succ (c k : N) : wrap (wrap (c + 1) + k) = wrap (c + (1 + k)).
Proof.
  unfold wrap. rewrite N.Div0.add_mod_idemp_l. f_equal. lia.
Qed.

(** [2^32] is even, so wrapping keeps the parity. *)
Lemma wrap_parity (n : N) : wrap n mod 2 = n mod 2.
Proof.
  unfold wrap, uint_modulus.
  rewrite (N.div_mod n (2 ^ 32)) at 2 by discriminate.
  change (2 ^ 32) with (2 * 2 ^ 31) at 2.
  rewrite <- N.mul_assoc, N.add_comm, (N.mul_comm 2), N.Div0.mod_add.
  reflexivity.
Qed.

(** [count & 1] is the parity of the counter. *)
Lemma land_1_parity (n : N) : N.land n 1 = n mod 2.
Proof. apply (N.land_ones n 1). Qed.

Lemma of_nat_parity (k : nat) :
  N.of_nat k mod 2 = if Nat.odd k then 1 else 0.
Proof.
  induction k as [k IH] using lt_wf_ind.
  destruct k as [|[|k]]; [reflexivity | reflexivity |].
  replace (N.of_nat (S (S k))) with (N.of_nat k + 1 * 2) by lia.
  rewrite N.Div0.mod_add, IH by lia. reflexivity.
Qed.

Lemma half_double (p : nat) : N.of_nat (2 * p) / 2 = N.of_nat p.
Proof.
  replace (N.of_nat (2 * p)) with (N.of_nat p * 2) by lia.
  apply N.div_mul. discriminate.
Qed.

Lemma double_even (p : nat) : N.of_nat (2 * p) mod 2 = 0.
Proof.
  replace (N.of_nat (2 * p)) with (N.of_nat p * 2) by lia.
  apply N.Div0.mod_mul.
Qed.

(** *** The counting loop *)

Lemma elements_Tensor_new : elements Tensor_new = 0.
Proof. reflexivity. Qed.

(** The loop never touches the content of the stream. *)
Lemma count_loop_records (fuel : nat) :
  forall s count, records (snd (count_loop fuel s count)) = records s.
Proof.
  induction fuel as [|fuel IH]; intros s count; simpl; [reflexivity|].
  destruct (eof s); [reflexivity|].
  unfold Deserialize. destruct (records s !! gpos s) as [t|]; simpl.
  - destruct (elements t =? 0); [reflexivity|]. now rewrite IH.
  - reflexivity.
Qed.

(** One spare iteration changes nothing once the fuel exceeds the records
    left: the loop has ended by its own exit test. *)
Lemma count_loop_spare (fuel : nat) :
  forall s count,
    (remaining s < fuel)%nat ->
    count_loop (S fuel) s count = count_loop fuel s count.
Proof.
  induction fuel as [|fuel IH]; intros s count Hfuel; [lia|].
  change (count_loop (S (S fuel)) s count) with
    (if eof s then (count, s)
     else let '(tensor, s') := Deserialize s in
          if elements tensor =? 0 then (count, s')
          else count_loop (S fuel) s' (wrap (count + 1))).
  change (count_loop (S fuel) s count) with
    (if eof s then (count, s)
     else let '(tensor, s') := Deserialize s in
          if elements tensor =? 0 then (count, s')
          else count_loop fuel s' (wrap (count + 1))).
  destruct (eof s); [reflexivity|].
  unfold Deserialize.
  destruct (records s !! gpos s) as [t|] eqn:Hnext; [|reflexivity].
  destruct (elements t =? 0); [reflexivity|].
  apply IH. unfold remaining in *; simpl.
  apply lookup_lt_Some in Hnext. lia.
Qed.

Lemma count_loop_enough (fuel : nat) (s : istream) (count : N) :
  (remaining s < fuel)%nat ->
  count_loop fuel s count = count_tensors s count.
Proof.
  unfold count_tensors. fold (remaining s).
  induction fuel as [|fuel IH]; intros Hfuel; [lia|].
  destruct (decide (fuel = remaining s)) as [->|Hne]; [reflexivity|].
  rewrite count_loop_spare by lia. apply IH. lia.
Qed.

(** The loop counts the records of the spec's reading, in [unsigned int]
    arithmetic. *)
Lemma count_loop_counts (fuel : nat) :
  forall s count,
    (remaining s < fuel)%nat -> count < uint_modulus ->
    fst (count_loop fuel s count) = wrap (count + N.of_nat (record_count s)).
Proof.
  induction fuel as [|fuel IH]; intros s count Hfuel Hcount; [lia|].
  simpl. unfold record_count, eof.
  destruct (eofbit s) eqn:Heof.
  { simpl. rewrite N.add_0_r, wrap_small; trivial. }
  unfold Deserialize.
  destruct (records s !! gpos s) as [t|] eqn:Hnext.
  - rewrite (drop_S _ _ _ Hnext). simpl.
    destruct (elements t =? 0) eqn:Hzero.
    + simpl. rewrite N.add_0_r, wrap_small; trivial.
    + rewrite IH.
      * unfold record_count; simpl. rewrite Heof, wrap_succ.
        f_equal. simpl length. lia.
      * unfold remaining in *; simpl. apply lookup_lt_Some in Hnext. lia.
      * apply wrap_lt.
  - simpl. apply lookup_ge_None in Hnext.
    rewrite drop_ge by lia. simpl.
    rewrite N.add_0_r, wrap_small; trivial.
Qed.

Lemma count_tensors_counts (s : istream) :
  fst (count_tensors s 0) = wrap (N.of_nat (record_count s)).
Proof.
  unfold count_tensors. rewrite count_loop_counts.
  - reflexivity.
  - unfold remaining. lia.
  - reflexivity.
Qed.

Lemma count_tensors_records (s : istream) (count : N) :
  records (snd (count_tensors s count)) = records s.
Proof. apply count_loop_records. Qed.

(** *** The replay loops *)

Lemma read_pair_in_range (t : N) (data labels : list Tensor) (s : istream) :
  (N.to_nat t < length data)%nat -> length labels = length data ->
  read_pair t (data, labels, s) =
    Done (<[N.to_nat t := (Deserialize s).1]> data,
          <[N.to_nat t := (Deserialize (Deserialize s).2).1]> labels,
          (Deserialize (Deserialize s).2).2).
Proof.
  intros Ht Hlen. unfold read_pair.
  destruct (lookup_lt_is_Some_2 data (N.to_nat t) Ht) as [d0 ->].
  destruct (lookup_lt_is_Some_2 labels (N.to_nat t)) as [l0 Hl0]; [lia|].
  destruct (Deserialize s) as [d s1]. cbn [fst snd].
  rewrite Hl0. destruct (Deserialize s1) as [l s2]. reflexivity.
Qed.

(** A replay loop that stays inside the arrays overwrites the slots
    [t .. t + n) with the pairs it reads, in stream order. *)
Lemma read_pairs_done (n : nat) :
  forall (t : N) (data labels : list Tensor) (s : istream),
    length labels = length data ->
    (N.to_nat t + n <= length data)%nat ->
    for_loop n t read_pair (data, labels, s) =
      Done (take (N.to_nat t) data ++ (replay n s).1.*1
              ++ drop (N.to_nat t + n) data,
            take (N.to_nat t) labels ++ (replay n s).1.*2
              ++ drop (N.to_nat t + n) labels,
            (replay n s).2).
Proof.
  induction n as [|n IH]; intros t data labels s Hlen Hfit.
  - simpl. rewrite Nat.add_0_r, !take_drop. reflexivity.
  - cbn [for_loop]. rewrite read_pair_in_range by lia.
    rewrite IH by (rewrite ?length_insert; lia).
    cbn [replay].
    destruct (Deserialize s) as [d s1]. cbn [fst snd].
    destruct (Deserialize s1) as [l s2]. cbn [fst snd].
    destruct (replay n s2) as [ps s3]. cbn [fst snd].
    destruct (lookup_lt_is_Some_2 data (N.to_nat t)) as [d0 Hd0]; [lia|].
    destruct (lookup_lt_is_Some_2 labels (N.to_nat t)) as [l0 Hl0]; [lia|].
    replace (N.to_nat (t + 1) + n)%nat with (N.to_nat t + S n)%nat by lia.
    replace (N.to_nat (t + 1)) with (S (N.to_nat t)) by lia.
    assert (Htake : forall (x : Tensor) (xs : list Tensor),
              (N.to_nat t < length xs)%nat ->
              take (S (N.to_nat t)) (<[N.to_nat t := x]> xs)
              = take (N.to_nat t) xs ++ [x]).
    { intros x xs Hxs.
      rewrite (take_S_r _ _ x) by now apply list_lookup_insert_eq.
      rewrite take_insert_ge by lia. reflexivity. }
    rewrite !Htake by lia.
    rewrite !drop_insert_lt by lia.
    rewrite !fmap_cons. cbn [fst snd].
    rewrite <- !app_assoc. reflexivity.
Qed.

(** A replay loop that is asked for more pairs than the arrays have slots
    left writes outside the allocation. *)
Lemma read_pairs_overflow (n : nat) :
  forall (t : N) (data labels : list Tensor) (s : istream),
    length labels = length data ->
    (N.to_nat t <= length data)%nat ->
    (length data < N.to_nat t + n)%nat ->
    for_loop n t read_pair (data, labels, s) = OutOfBounds.
Proof.
  induction n as [|n IH]; intros t data labels s Hlen Hle Hover; [lia|].
  cbn [for_loop].
  destruct (decide (N.to_nat t = length data)) as [Hend|Hin].
  - unfold read_pair.
    rewrite (proj2 (lookup_ge_None data (N.to_nat t))) by lia. reflexivity.
  - rewrite read_pair_in_range by lia.
    apply IH; rewrite ?length_insert; lia.
Qed.

(** *** The error cache *)

(** Loop invariants for [for_loop]: a body that keeps the invariant and does
    not fail carries it from the first counter value to the exit value. *)
Lemma for_loop_invariant {St : Type} (Inv : N -> St -> Prop)
    (body : N -> St -> outcome St) (n : nat) :
  forall (t : N) (st : St),
    Inv t st ->
    (forall i s, t <= i < t + N.of_nat n -> Inv i s ->
                 exists s', body i s = Done s' /\ Inv (i + 1) s') ->
    exists st', for_loop n t body st = Done st' /\ Inv (t + N.of_nat n) st'.
Proof.
  induction n as [|n IH]; intros t st Hst Hbody.
  - exists st. split; [reflexivity|]. now rewrite N.add_0_r.
  - destruct (Hbody t st) as (s' & Hrun & Hs'); [lia|assumption|].
    cbn [for_loop]. rewrite Hrun.
    destruct (IH (t + 1) s' Hs') as (st' & Hloop & Hst').
    + intros i s Hi. apply Hbody. lia.
    + exists st'. split; [assumption|].
      replace (t + N.of_nat (S n)) with (t + 1 + N.of_nat n) by lia.
      assumption.
Qed.

Lemma write_cell_filled (w h : N) (ef : dataset_localized_error_function)
    (x y : N) (cache : Tensor) :
  x < w -> y < h ->
  filled w h ef (y * w + x) cache ->
  filled w h ef (y * w + (x + 1)) (write_cell cache x y (ef x y)).
Proof.
  intros Hx Hy (Hs & Hw & Hh & Hm & Hlen & Hcells).
  unfold filled, write_cell; cbn [samples width height maps cells].
  rewrite length_insert.
  repeat (split; [assumption|]).
  assert (Hoff : Offset cache x y 0 0 = y * w + x).
  { unfold Offset. rewrite Hw. lia. }
  rewrite Hoff. intros o Ho.
  destruct (decide (o = y * w + x)) as [->|Hne].
  - rewrite list_lookup_insert_eq by (rewrite Hlen; nia).
    rewrite (N.add_comm (y * w) x), N.Div0.mod_add, N.div_add by lia.
    rewrite N.mod_small, N.div_small by assumption. reflexivity.
  - rewrite list_lookup_insert_ne by lia. apply Hcells. lia.
Qed.

(** Both dimensions below [2^32]: the two loops end and leave every cell
    of the cache written. *)
Lemma prepare_error_cache_done (first : Tensor)
    (ef : dataset_localized_error_function) :
  width first < uint_modulus -> height first < uint_modulus ->
  exists cache,
    prepare_error_cache first ef = Done cache
    /\ filled (width first) (height first) ef
         (height first * width first) cache.
Proof.
  intros Hw Hh. unfold prepare_error_cache, for_dimension.
  set (w := width first) in *. set (h := height first) in *.
  rewrite (proj2 (N.leb_gt uint_modulus h)),
          (proj2 (N.leb_gt uint_modulus w)) by assumption.
  destruct (for_loop_invariant (fun y c => filled w h ef (y * w) c)
              (fun y c => for_loop (N.to_nat w) 0
                 (fun x c => Done (write_cell c x y (ef x y))) c)
              (N.to_nat h) 0 (Resize 1 w h 1)) as (cache & Hrun & Hinv).
  - unfold filled, Resize; cbn [samples width height maps cells].
    rewrite length_replicate.
    repeat (split; [reflexivity|]).
    split; [f_equal; lia|]. intros o Ho. lia.
  - intros y c Hy Hc.
    destruct (for_loop_invariant (fun x c => filled w h ef (y * w + x) c)
                (fun x c => Done (write_cell c x y (ef x y)))
                (N.to_nat w) 0 c) as (c' & Hrow & Hc').
    + now rewrite N.add_0_r.
    + intros x c0 Hx Hc0. eexists. split; [reflexivity|].
      apply write_cell_filled; [lia|lia|assumption].
    + exists c'. split; [assumption|].
      replace ((y + 1) * w) with (y * w + (0 + N.of_nat (N.to_nat w))) by lia.
      assumption.
  - exists cache. split; [assumption|].
    replace (h * w) with ((0 + N.of_nat (N.to_nat h)) * w) by lia.
    assumption.
Qed.

(** A dimension of [2^32] or more keeps a counter loop running, unless the
    outer loop has nothing to do. *)
Lemma prepare_error_cache_diverges (first : Tensor)
    (ef : dataset_localized_error_function) :
  uint_modulus <= height first
  \/ (0 < height first /\ uint_modulus <= width first) ->
  prepare_error_cache first ef = Diverges.
Proof.
  unfold prepare_error_cache, for_dimension.
  intros [Hh|[Hpos Hw]].
  - now rewrite (proj2 (N.leb_le uint_modulus (height first))).
  - destruct (uint_modulus <=? height first); [reflexivity|].
    destruct (N.to_nat (height first)) as [|n] eqn:Hn; [lia|].
    cbn [for_loop].
    now rewrite (proj2 (N.leb_le uint_modulus (width first))).
Qed.

(** However the loops went, a finished cache is filled. *)
Lemma prepare_error_cache_inv (first : Tensor)
    (ef : dataset_localized_error_function) (cache : Tensor) :
  prepare_error_cache first ef = Done cache ->
  filled (width first) (height first) ef (height first * width first) cache.
Proof.
  intros Hrun.
  destruct (N.lt_ge_cases (height first) uint_modulus) as [Hh|Hh].
  2: { rewrite prepare_error_cache_diverges in Hrun by (now left).
       discriminate. }
  destruct (N.eq_0_gt_0_cases (height first)) as [Hzero|Hpos].
  - unfold prepare_error_cache, for_dimension in Hrun.
    rewrite Hzero in *. cbn in Hrun. injection Hrun as <-.
    unfold filled, Resize; cbn [samples width height maps cells].
    rewrite length_replicate.
    repeat (split; [reflexivity|]).
    split; [f_equal; lia|]. intros o Ho. lia.
  - destruct (N.lt_ge_cases (width first) uint_modulus) as [Hw|Hw].
    2: { rewrite prepare_error_cache_diverges in Hrun by (now right).
         discriminate. }
    destruct (prepare_error_cache_done first ef Hw Hh) as (c & Hc & Hfilled).
    congruence.
Qed.

(** In a filled cache, the cell of every coordinate holds its weight. *)
Lemma filled_cell (w h : N) (ef : dataset_localized_error_function)
    (cache : Tensor) (x y : N) :
  filled w h ef (h * w) cache -> x < w -> y < h ->
  cell cache x y = Some (ef x y).
Proof.
  intros (Hs & Hw & Hh & Hm & Hlen & Hcells) Hx Hy.
  unfold cell, Offset. rewrite Hw.
  replace (0 * (w * height cache * maps cache) + 0 * (w * height cache)
           + y * w + x) with (x + y * w) by lia.
  rewrite Hcells by nia.
  rewrite N.Div0.mod_add, N.div_add by lia.
  rewrite N.mod_small, N.div_small by assumption. reflexivity.
Qed.

(** *** The constructor, case by case *)

Ltac uint_arith :=
  unfold counted, wrap, uint_modulus in *;
  change (2 ^ 32) with 4294967296 in *;
  zify; Z.to_euclidean_division_equations; lia.

Lemma replay_length (n : nat) :
  forall s, length (replay n s).1 = n.
Proof.
  induction n as [|n IH]; intros s; [reflexivity|].
  cbn [replay]. destruct (Deserialize s) as [d s1].
  destruct (Deserialize s1) as [l s2].
  specialize (IH s2). destruct (replay n s2) as [ps s3].
  cbn [fst length] in *. now rewrite IH.
Qed.

Lemma counted_lt (s : istream) : counted s < uint_modulus.
Proof. apply wrap_lt. Qed.

(** Every way through the constructor, in terms of the two record counts. *)
Lemma construct_cases (tr te : istream) (cl : N) (names : list string)
    (ef : dataset_localized_error_function) :
  construct tr te cl names ef =
    let a := counted tr in
    let b := counted te in
    if negb (a mod 2 =? 0) then Fatal "Odd training tensor count!"
    else if negb (b mod 2 =? 0) then Fatal "Odd testing tensor count!"
    else if uint_modulus <=? a + b then OutOfBounds
    else
      match (replay (N.to_nat (a / 2)) (rewound tr)).1
            ++ (replay (N.to_nat (b / 2)) (rewound te)).1 with
      | [] => OutOfBounds
      | (first_data, first_label) :: _ =>
          match prepare_error_cache first_data ef with
          | Done cache =>
              Done (built tr te cl names first_data first_label cache)
          | Fatal msg => Fatal msg
          | OutOfBounds => OutOfBounds
          | Diverges => Diverges
          end
      end.
Proof.
  unfold construct, built.
  pose proof (count_tensors_counts tr) as Ha.
  pose proof (count_tensors_records tr 0) as Hra.
  destruct (count_tensors tr 0) as [a tr']. cbn [fst snd] in Ha, Hra.
  pose proof (count_tensors_counts te) as Hb.
  pose proof (count_tensors_records te 0) as Hrb.
  destruct (count_tensors te 0) as [b te']. cbn [fst snd] in Hb, Hrb.
  fold (counted tr) in Ha. fold (counted te) in Hb. subst a b.
  replace (seekg_beg (clear tr')) with (rewound tr)
    by (unfold seekg_beg, clear, rewound; cbn; now rewrite Hra).
  replace (seekg_beg (clear te')) with (rewound te)
    by (unfold seekg_beg, clear, rewound; cbn; now rewrite Hrb).
  cbv zeta. rewrite !land_1_parity.
  pose proof (counted_lt tr) as Hlta. pose proof (counted_lt te) as Hltb.
  set (a := counted tr) in *. set (b := counted te) in *.
  destruct (a mod 2 =? 0) eqn:Hea; [|reflexivity].
  destruct (b mod 2 =? 0) eqn:Heb; [|reflexivity].
  cbn [negb]. apply N.eqb_eq in Hea, Heb.
  destruct (uint_modulus <=? a + b) eqn:Hsum.
  - apply N.leb_le in Hsum.
    rewrite read_pairs_overflow; [reflexivity|reflexivity|cbn; lia|].
    rewrite length_replicate.
    assert (wrap (b + a) / 2 < a / 2) by (clear - Hea Heb Hlta Hltb Hsum; uint_arith).
    lia.
  - apply N.leb_gt in Hsum.
    assert (Htensors : wrap (b + a) / 2 = a / 2 + b / 2)
      by (clear - Hea Heb Hsum; uint_arith).
    rewrite Htensors.
    set (p := N.to_nat (a / 2)). set (q := N.to_nat (b / 2)).
    replace (N.to_nat (a / 2 + b / 2)) with (p + q)%nat by lia.
    replace (N.to_nat (a / 2 + b / 2 - a / 2)) with q by lia.
    rewrite read_pairs_done by (rewrite ?length_replicate; cbn; lia).
    fold p.
    pose proof (replay_length p (rewound tr)) as Hp.
    pose proof (replay_length q (rewound te)) as Hq.
    destruct (replay p (rewound tr)) as [ps1 tr2].
    destruct (replay q (rewound te)) as [ps2 te2] eqn:Hte.
    cbn [fst snd] in *.
    change (N.to_nat 0) with O. rewrite !take_0, Nat.add_0_l.
    rewrite drop_replicate. replace (p + q - p)%nat with q by lia.
    cbn [app].
    rewrite read_pairs_done;
      [|rewrite !length_app, !length_fmap, !length_replicate; lia
       |rewrite !length_app, !length_fmap, !length_replicate; lia].
    rewrite Hte. cbn [fst snd].
    rewrite !take_app_length' by (now rewrite length_fmap).
    rewrite !drop_ge
      by (rewrite !length_app, !length_fmap, !length_replicate; lia).
    rewrite !app_nil_r, <- !fmap_app.
    destruct (ps1 ++ ps2) as [|[first_data first_label] rest];
      reflexivity.
Qed.

(** *** Parity of the record counts *)

Lemma counted_parity (s : istream) :
  counted s mod 2 = if Nat.odd (record_count s) then 1 else 0.
Proof. unfold counted. now rewrite wrap_parity, of_nat_parity. Qed.

(** An odd training stream stops the constructor, whatever the testing
    stream holds. *)
Lemma construct_odd_training (tr te : istream) (cl : N) (names : list string)
    (ef : dataset_localized_error_function) :
  Nat.odd (record_count tr) = true ->
  construct tr te cl names ef = Fatal "Odd training tensor count!".
Proof.
  intros Hodd. rewrite construct_cases. cbv zeta.
  now rewrite counted_parity, Hodd.
Qed.

(** An odd testing stream stops it once the training stream has passed. *)
Lemma construct_odd_testing (tr te : istream) (cl : N) (names : list string)
    (ef : dataset_localized_error_function) :
  Nat.odd (record_count tr) = false ->
  Nat.odd (record_count te) = true ->
  construct tr te cl names ef = Fatal "Odd testing tensor count!".
Proof.
  intros Heven Hodd. rewrite construct_cases. cbv zeta.
  now rewrite !counted_parity, Heven, Hodd.
Qed.

(** Either way an odd record count is fatal. *)
Lemma construct_odd_fatal (tr te : istream) (cl : N) (names : list string)
    (ef : dataset_localized_error_function) :
  Nat.odd (record_count tr) = true \/ Nat.odd (record_count te) = true ->
  exists msg, construct tr te cl names ef = Fatal msg.
Proof.
  intros Hodd.
  destruct (Nat.odd (record_count tr)) eqn:Htr.
  - eexists. now apply construct_odd_training.
  - destruct Hodd as [Hodd|Hodd]; [discriminate|].
    eexists. now apply construct_odd_testing.
Qed.

(** Two streams without a single record leave a pool of length zero, and
    the read of [data_[0]] that follows the replay loops is outside it. *)
Lemma construct_no_records (tr te : istream) (cl : N) (names : list string)
    (ef : dataset_localized_error_function) :
  record_count tr = O -> record_count te = O ->
  construct tr te cl names ef = OutOfBounds.
Proof.
  intros Htr Hte. rewrite construct_cases. unfold counted.
  rewrite Htr, Hte. reflexivity.
Qed.

Lemma construct_done_inv (tr te : istream) (cl : N) (names : list string)
    (ef : dataset_localized_error_function) (c : TensorStreamDataset) :
  construct tr te cl names ef = Done c -> constructed tr te cl names ef c.
Proof.
  rewrite construct_cases. cbv zeta.
  destruct (counted tr mod 2 =? 0) eqn:Hea; [|discriminate].
  destruct (counted te mod 2 =? 0) eqn:Heb; [|discriminate].
  cbn [negb].
  destruct (uint_modulus <=? counted tr + counted te) eqn:Hsum;
    [discriminate|].
  apply N.eqb_eq in Hea, Heb. apply N.leb_gt in Hsum.
  destruct (_ ++ _) as [|[first_data first_label] rest] eqn:Hpool;
    [discriminate|].
  destruct (prepare_error_cache first_data ef) as [cache| | |] eqn:Hcache;
    try discriminate.
  intros [= <-]. unfold built. rewrite Hpool.
  split; cbn [tensor_count_training_ tensor_count_testing_ tensors_ data_
              labels_ classes_ class_names_ input_maps_ label_maps_
              error_cache]; try assumption; try reflexivity.
  - now rewrite Hpool.
  - now rewrite Hpool.
  - exists first_data, first_label. repeat split; assumption.
Qed.

Lemma constructed_well_formed (tr te : istream) (cl : N)
    (names : list string) (ef : dataset_localized_error_function)
    (c : TensorStreamDataset) :
  constructed tr te cl names ef c -> well_formed c.
Proof.
  intros H. unfold well_formed.
  rewrite (con_data _ _ _ _ _ _ H), (con_labels _ _ _ _ _ _ H),
          (con_training _ _ _ _ _ _ H), (con_testing _ _ _ _ _ _ H).
  rewrite !length_fmap, !length_app, !replay_length.
  pose proof (con_sum _ _ _ _ _ _ H).
  repeat split; [lia|].
  clear - H0. uint_arith.
Qed.

(** *** What the replay loops read *)

Lemma pairs_ind2 (P : list Tensor -> Prop) :
  P [] -> (forall x, P [x]) ->
  (forall d l rest, P rest -> P (d :: l :: rest)) ->
  forall xs, P xs.
Proof.
  intros Hnil Hone Hstep. fix IH 1.
  intros [|d [|l rest]]; [apply Hnil|apply Hone|apply Hstep, IH].
Qed.

Lemma valid_records_prefix (l : list Tensor) :
  valid_records l = take (length (valid_records l)) l.
Proof.
  induction l as [|t l IH]; [reflexivity|].
  cbn [valid_records]. destruct (elements t =? 0); [reflexivity|].
  cbn [length take]. now rewrite <- IH.
Qed.

Lemma valid_records_length (l : list Tensor) :
  (length (valid_records l) <= length l)%nat.
Proof.
  induction l as [|t l IH]; [reflexivity|].
  cbn [valid_records]. destruct (elements t =? 0); cbn [length]; lia.
Qed.

Lemma valid_records_elem (l : list Tensor) (t : Tensor) :
  t ∈ valid_records l -> t ∈ l /\ elements t <> 0.
Proof.
  induction l as [|t0 l IH]; cbn [valid_records].
  - intros H. inversion H.
  - destruct (elements t0 =? 0) eqn:Hzero.
    + intros H. inversion H.
    + apply N.eqb_neq in Hzero.
      intros [->|H]%elem_of_cons.
      * split; [left|assumption].
      * split; [right; now apply IH|now apply IH].
Qed.

Lemma pairs_take (p : nat) :
  forall l, pairs (take (2 * p) l) = take p (pairs l).
Proof.
  induction p as [|p IH]; intros l.
  - now destruct l as [|d [|lab rest]].
  - replace (2 * S p)%nat with (S (S (2 * p))) by lia.
    destruct l as [|d [|lab rest]]; [reflexivity|reflexivity|].
    cbn [take pairs]. now rewrite IH.
Qed.

Lemma pairs_elem (xs : list Tensor) :
  forall d l, (d, l) ∈ pairs xs -> d ∈ xs /\ l ∈ xs.
Proof.
  induction xs as [|x|d0 l0 rest IH] using pairs_ind2; intros d l.
  - intros H. inversion H.
  - intros H. inversion H.
  - cbn [pairs]. intros [[= -> ->]|H]%elem_of_cons.
    + split; [left|right; left].
    + destruct (IH _ _ H). split; right; now right.
Qed.

(** With enough records ahead, a replay loop reads them pair by pair. *)
Lemma replay_pairs (n : nat) :
  forall s,
    (gpos s + 2 * n <= length (records s))%nat ->
    (replay n s).1 = take n (pairs (drop (gpos s) (records s))).
Proof.
  induction n as [|n IH]; intros s Hlen; [reflexivity|].
  cbn [replay]. unfold Deserialize at 1.
  destruct (lookup_lt_is_Some_2 (records s) (gpos s)) as [d Hd]; [lia|].
  rewrite Hd. unfold Deserialize at 1. cbn [records gpos].
  destruct (lookup_lt_is_Some_2 (records s) (S (gpos s))) as [l Hl]; [lia|].
  rewrite Hl.
  specialize (IH (mkStream (records s) (S (S (gpos s))) (eofbit s))).
  cbn [records gpos] in IH.
  destruct (replay n _) as [ps s3]. cbn [fst] in *.
  rewrite (drop_S _ _ _ Hd), (drop_S _ _ _ Hl). cbn [pairs take].
  rewrite IH by lia. reflexivity.
Qed.

(** A stream opened at its start with [2 p] valid records: the replay of
    [p] pairs reads exactly the pairs of the valid records. *)
Lemma replay_open_stream (recs : list Tensor) (p : nat) :
  length (valid_records recs) = (2 * p)%nat ->
  (replay p (rewound (open_stream recs))).1 = pairs (valid_records recs).
Proof.
  intros Hlen. pose proof (valid_records_length recs).
  rewrite replay_pairs by (cbn; lia). cbn [rewound open_stream records gpos].
  rewrite drop_0, valid_records_prefix, Hlen. now rewrite pairs_take.
Qed.

Lemma counted_open_stream (recs : list Tensor) (k : nat) :
  length (valid_records recs) = k -> N.of_nat k < uint_modulus ->
  counted (open_stream recs) = N.of_nat k.
Proof.
  intros Hlen Hfit. unfold counted, record_count.
  cbn [open_stream eofbit gpos records]. rewrite drop_0, Hlen.
  now apply wrap_small.
Qed.

(** *** Completion *)

(** Streams opened at their start with [2 p] and [2 q] valid records, the
    counts within [unsigned int], at least one pair in all: the constructor
    completes, and the pool holds the [p] training pairs followed by the
    [q] testing pairs. *)
Lemma construct_even_done (tr te : list Tensor) (p q : nat) (cl : N)
    (names : list string) (ef : dataset_localized_error_function) :
  length (valid_records tr) = (2 * p)%nat ->
  length (valid_records te) = (2 * q)%nat ->
  N.of_nat (2 * p + 2 * q) < uint_modulus ->
  (0 < p + q)%nat ->
  Forall countable_extent (tr ++ te) ->
  exists c,
    construct (open_stream tr) (open_stream te) cl names ef = Done c
    /\ GetTrainingSamples c = N.of_nat p
    /\ GetTestingSamples c = N.of_nat q
    /\ tensors_ c = N.of_nat (p + q)
    /\ data_ c = (pairs (valid_records tr) ++ pairs (valid_records te)).*1
    /\ labels_ c = (pairs (valid_records tr) ++ pairs (valid_records te)).*2.
Proof.
  intros Hp Hq Hfit Hpos Hdims.
  assert (Ha : counted (open_stream tr) = N.of_nat (2 * p))
    by (apply counted_open_stream; [assumption|lia]).
  assert (Hb : counted (open_stream te) = N.of_nat (2 * q))
    by (apply counted_open_stream; [assumption|lia]).
  pose proof (half_double p) as Ha2. pose proof (half_double q) as Hb2.
  pose proof (construct_cases (open_stream tr) (open_stream te) cl names ef)
    as Hcases.
  cbv zeta in Hcases. unfold built in Hcases.
  rewrite Ha, Hb, Ha2, Hb2, !Nat2N.id in Hcases.
  rewrite !replay_open_stream in Hcases by assumption.
  rewrite !double_even in Hcases. change (0 =? 0) with true in Hcases.
  cbn [negb] in Hcases.
  rewrite (proj2 (N.leb_gt _ _)) in Hcases by lia.
  destruct (pairs (valid_records tr) ++ pairs (valid_records te))
    as [|[first_data first_label] rest] eqn:Hpool.
  { apply (f_equal length) in Hpool. rewrite length_app in Hpool.
    rewrite <- !replay_open_stream with (p := p) in Hpool by assumption.
    rewrite <- replay_open_stream with (p := q) in Hpool by assumption.
    rewrite !replay_length in Hpool. cbn in Hpool. lia. }
  assert (Hext : countable_extent first_data).
  { rewrite Forall_forall in Hdims. apply Hdims.
    assert (Hin : (first_data, first_label)
                  ∈ pairs (valid_records tr) ++ pairs (valid_records te))
      by (rewrite Hpool; left).
    apply elem_of_app. apply elem_of_app in Hin as [Hin|Hin];
      [left|right]; apply pairs_elem in Hin as [Hin _];
      now apply valid_records_elem in Hin. }
  destruct Hext as [Hw Hh].
  destruct (prepare_error_cache_done first_data ef Hw Hh)
    as (cache & Hcache & _).
  rewrite Hcache in Hcases.
  eexists. split; [exact Hcases|].
  unfold GetTrainingSamples, GetTestingSamples.
  cbn [tensor_count_training_ tensor_count_testing_ tensors_ data_ labels_].
  rewrite Ha2, Hb2. repeat split. lia.
Qed.

(** *** The sample accessors *)

Lemma copy_sample_from_done (c : TensorStreamDataset) (i : N)
    (dt lt wt : Tensor) (sample : N) (d l : Tensor) :
  data_ c !! N.to_nat i = Some d -> labels_ c !! N.to_nat i = Some l ->
  copy_sample_from c i dt lt wt sample = Done (copies c d l dt lt wt sample).
Proof.
  intros Hd Hl. unfold copy_sample_from, copies. rewrite Hd, Hl.
  destruct (CopySample d 0 dt sample) as [ok1 dt'].
  destruct (CopySample l 0 lt sample) as [ok2 lt'].
  destruct (CopySample (error_cache c) 0 wt sample) as [ok3 wt'].
  reflexivity.
Qed.

Lemma pool_slot (c : TensorStreamDataset) (i : N) :
  well_formed c ->
  i < tensor_count_training_ c / 2 + tensor_count_testing_ c / 2 ->
  exists d l,
    data_ c !! N.to_nat i = Some d /\ labels_ c !! N.to_nat i = Some l.
Proof.
  intros (Hdata & Hlabels & _) Hi.
  destruct (lookup_lt_is_Some_2 (data_ c) (N.to_nat i)) as [d Hd]; [lia|].
  destruct (lookup_lt_is_Some_2 (labels_ c) (N.to_nat i)) as [l Hl]; [lia|].
  now exists d, l.
Qed.

Lemma GetTrainingSample_in_range (c : TensorStreamDataset)
    (dt lt wt : Tensor) (sample index : N) :
  well_formed c -> index < GetTrainingSamples c ->
  exists d l,
    data_ c !! N.to_nat index = Some d
    /\ labels_ c !! N.to_nat index = Some l
    /\ GetTrainingSample c dt lt wt sample index
       = Done (copies c d l dt lt wt sample).
Proof.
  intros Hwf Hi. unfold GetTrainingSamples in Hi.
  destruct (pool_slot c index Hwf) as (d & l & Hd & Hl);
    [clear - Hi; uint_arith|].
  exists d, l. repeat split; try assumption.
  unfold GetTrainingSample. rewrite (proj2 (N.ltb_lt _ _) Hi).
  now apply copy_sample_from_done.
Qed.

Lemma GetTrainingSample_out_of_range (c : TensorStreamDataset)
    (dt lt wt : Tensor) (sample index : N) :
  GetTrainingSamples c <= index ->
  GetTrainingSample c dt lt wt sample index
  = Done (mkResult false dt lt wt c).
Proof.
  intros Hi. unfold GetTrainingSample, GetTrainingSamples in *.
  now rewrite (proj2 (N.ltb_ge _ _) Hi).
Qed.

Lemma GetTestingSample_in_range (c : TensorStreamDataset)
    (dt lt wt : Tensor) (sample index : N) :
  well_formed c -> index < GetTestingSamples c ->
  exists d l,
    data_ c !! N.to_nat (GetTrainingSamples c + index) = Some d
    /\ labels_ c !! N.to_nat (GetTrainingSamples c + index) = Some l
    /\ GetTestingSample c dt lt wt sample index
       = Done (copies c d l dt lt wt sample).
Proof.
  intros Hwf Hi. unfold GetTrainingSamples, GetTestingSamples in *.
  destruct (pool_slot c (tensor_count_training_ c / 2 + index) Hwf)
    as (d & l & Hd & Hl); [clear - Hi; uint_arith|].
  exists d, l. repeat split; try assumption.
  unfold GetTestingSample. rewrite (proj2 (N.ltb_lt _ _) Hi).
  rewrite wrap_small
    by (destruct Hwf as (_ & _ & Hfit); clear - Hi Hfit; uint_arith).
  now apply copy_sample_from_done.
Qed.

Lemma GetTestingSample_out_of_range (c : TensorStreamDataset)
    (dt lt wt : Tensor) (sample index : N) :
  GetTestingSamples c <= index ->
  GetTestingSample c dt lt wt sample index
  = Done (mkResult false dt lt wt c).
Proof.
  intros Hi. unfold GetTestingSample, GetTestingSamples in *.
  now rewrite (proj2 (N.ltb_ge _ _) Hi).
Qed.

(** On a well-formed corpus a request is always answered, and the corpus
    it leaves is the corpus it found. *)
Lemma serve_keeps_corpus (c : TensorStreamDataset) (r : request) :
  well_formed c -> exists res, serve c r = Done res /\ this' res = c.
Proof.
  intros Hwf. destruct r as [dt lt wt sample index|dt lt wt sample index];
    cbn [serve].
  - destruct (N.lt_ge_cases index (GetTrainingSamples c)) as [Hi|Hi].
    + destruct (GetTrainingSample_in_range c dt lt wt sample index Hwf Hi)
        as (d & l & _ & _ & ->). now eexists.
    + rewrite GetTrainingSample_out_of_range by assumption. now eexists.
  - destruct (N.lt_ge_cases index (GetTestingSamples c)) as [Hi|Hi].
    + destruct (GetTestingSample_in_range c dt lt wt sample index Hwf Hi)
        as (d & l & _ & _ & ->). now eexists.
    + rewrite GetTestingSample_out_of_range by assumption. now eexists.
Qed.

Lemma serve_all_keeps_corpus (c : TensorStreamDataset) (rs : list request) :
  well_formed c -> serve_all c rs = Done c.
Proof.
  intros Hwf. induction rs as [|r rs IH]; [reflexivity|].
  cbn [serve_all].
  destruct (serve_keeps_corpus c r Hwf) as (res & -> & ->). exact IH.
Qed.

(** *** The name given to [localized_error] *)

Lemma select_error_function_kitti (current : named_error_function) :
  select_error_function "kitti" current = name_KITTIData_LocalizedError.
Proof. reflexivity. Qed.

Lemma select_error_function_other (name : string)
    (current : named_error_function) :
  name <> "kitti"%string -> name <> "default"%string ->
  select_error_function name current = name_DefaultLocalizedErrorFunction.
Proof.
  intros Hk Hd. unfold select_error_function.
  apply String.eqb_neq in Hk, Hd. now rewrite Hk, Hd.
Qed.

(** The name ["default"] fails the second test as well: nothing is assigned
    and the function selected so far stays. *)
Lemma select_error_function_default (current : named_error_function) :
  select_error_function "default" current = current.
Proof. reflexivity. Qed.

(** From the initial value of [error_function] every name other than
    ["kitti"] ends at the default function. *)
Lemma select_error_function_first (name : string) :
  name <> "kitti"%string ->
  select_error_function name name_DefaultLocalizedErrorFunction
  = name_DefaultLocalizedErrorFunction.
Proof.
  intros Hk. unfold select_error_function.
  apply String.eqb_neq in Hk. rewrite Hk. now destruct (negb _).
Qed.

(** The fuel of [configuration_loop] is never what ends it. *)
Lemma read_class_names_file (n : nat) :
  forall file names,
    (length (read_class_names n file names).2 <= length file)%nat.
Proof.
  induction n as [|n IH]; intros file names; [reflexivity|].
  destruct file as [|class_name file]; cbn [read_class_names].
  - apply IH.
  - etransitivity; [apply IH|]. cbn [length]. lia.
Qed.

Lemma configuration_line_file (line : string) (file : list string)
    (cfg : configuration) :
  (length (configuration_line line file cfg).2 <= length file)%nat.
Proof.
  unfold configuration_line.
  destruct (StartsWithIdentifier line "classes"); [|reflexivity].
  destruct (negb _); [|reflexivity].
  pose proof (read_class_names_file
                (N.to_nat (ParseCountIfPossible line "classes" (classes cfg)))
                file (class_names cfg)) as Hlen.
  destruct (read_class_names _ file (class_names cfg)) as [names file'].
  exact Hlen.
Qed.

Lemma configuration_loop_fuel (fuel1 : nat) :
  forall fuel2 file cfg,
    (length file <= fuel1)%nat -> (length file <= fuel2)%nat ->
    configuration_loop fuel1 file cfg = configuration_loop fuel2 file cfg.
Proof.
  induction fuel1 as [|fuel1 IH]; intros fuel2 file cfg H1 H2.
  - destruct file; [now destruct fuel2|cbn in H1; lia].
  - destruct file as [|line file]; [now destruct fuel2|].
    destruct fuel2 as [|fuel2]; [cbn in H2; lia|].
    cbn [configuration_loop].
    pose proof (configuration_line_file line file cfg) as Hlen.
    destruct (configuration_line line file cfg) as [cfg' file'].
    cbn [snd] in Hlen. cbn [length] in H1, H2.
    apply IH; lia.
Qed.

Lemma configuration_loop_enough (fuel : nat) (file : list string)
    (cfg : configuration) :
  (length file <= fuel)%nat ->
  configuration_loop fuel file cfg = read_configuration_from file cfg.
Proof.
  intros Hfuel. unfold read_configuration_from.
  now apply configuration_loop_fuel.
Qed.

(** ** The claims *)

(** C1 (pairing invariant, at its failing input).  Two streams without a
    record hold an even number of records, [2 * 0], and the constructor
    still does not complete: it stops at the access to the first slot of
    a pool that has none. *)
Theorem pairing_without_records (cl : N) (names : list string)
    (ef : dataset_localized_error_function) :
  record_count (open_stream []) = (2 * 0)%nat
  /\ construct (open_stream []) (open_stream []) cl names ef = OutOfBounds.
Proof.
  split; [reflexivity|]. now apply construct_no_records.
Qed.

(** C2 (partition ordering).  For a corpus completed from a training stream
    with [p] pairs and a testing stream with [q] pairs: [GetTrainingSample]
    takes its copying branch exactly on the indices below [p] and copies
    pair [index] of the training stream from pool position [index];
    [GetTestingSample] takes it exactly on the indices below [q] and copies
    pair [index] of the testing stream from pool position [p + index];
    every other index is answered with failure. *)
Theorem partition_ordering (tr te : list Tensor) (p q : nat) (cl : N)
    (names : list string) (ef : dataset_localized_error_function)
    (c : TensorStreamDataset) :
  construct (open_stream tr) (open_stream te) cl names ef = Done c ->
  length (valid_records tr) = (2 * p)%nat ->
  length (valid_records te) = (2 * q)%nat ->
  N.of_nat (2 * p) < uint_modulus ->
  N.of_nat (2 * q) < uint_modulus ->
  forall (dt lt wt : Tensor) (sample index : N),
    (index < N.of_nat p ->
     exists d l,
       pairs (valid_records tr) !! N.to_nat index = Some (d, l)
       /\ data_ c !! N.to_nat index = Some d
       /\ labels_ c !! N.to_nat index = Some l
       /\ GetTrainingSample c dt lt wt sample index
          = Done (copies c d l dt lt wt sample))
    /\ (N.of_nat p <= index ->
        GetTrainingSample c dt lt wt sample index
        = Done (mkResult false dt lt wt c))
    /\ (index < N.of_nat q ->
        exists d l,
          pairs (valid_records te) !! N.to_nat index = Some (d, l)
          /\ data_ c !! N.to_nat (N.of_nat p + index) = Some d
          /\ labels_ c !! N.to_nat (N.of_nat p + index) = Some l
          /\ GetTestingSample c dt lt wt sample index
             = Done (copies c d l dt lt wt sample))
    /\ (N.of_nat q <= index ->
        GetTestingSample c dt lt wt sample index
        = Done (mkResult false dt lt wt c)).
Proof.
  intros Hdone Hp Hq Hfitp Hfitq dt lt wt sample index.
  apply construct_done_inv in Hdone as Hcon.
  pose proof (constructed_well_formed _ _ _ _ _ _ Hcon) as Hwf.
  pose proof (counted_open_stream tr _ Hp Hfitp) as Ha.
  pose proof (counted_open_stream te _ Hq Hfitq) as Hb.
  pose proof (half_double p) as Ha2. pose proof (half_double q) as Hb2.
  assert (Htrain : GetTrainingSamples c = N.of_nat p)
    by (unfold GetTrainingSamples;
        now rewrite (con_training _ _ _ _ _ _ Hcon), Ha, Ha2).
  assert (Htest : GetTestingSamples c = N.of_nat q)
    by (unfold GetTestingSamples;
        now rewrite (con_testing _ _ _ _ _ _ Hcon), Hb, Hb2).
  pose proof (con_data _ _ _ _ _ _ Hcon) as Hdata.
  pose proof (con_labels _ _ _ _ _ _ Hcon) as Hlabels.
  rewrite Ha, Hb, Ha2, Hb2, !Nat2N.id in Hdata, Hlabels.
  rewrite !replay_open_stream in Hdata, Hlabels by assumption.
  assert (Hlenp : length (pairs (valid_records tr)) = p)
    by (rewrite <- (replay_open_stream tr p Hp); apply replay_length).
  repeat split.
  - intros Hi.
    destruct (GetTrainingSample_in_range c dt lt wt sample index Hwf)
      as (d & l & Hd & Hl & Hget); [lia|].
    exists d, l. repeat split; try assumption.
    rewrite Hdata, list_lookup_fmap, lookup_app_l in Hd by lia.
    rewrite Hlabels, list_lookup_fmap, lookup_app_l in Hl by lia.
    destruct (pairs (valid_records tr) !! N.to_nat index) as [[d' l']|];
      [|discriminate].
    cbn in Hd, Hl. congruence.
  - intros Hi. apply GetTrainingSample_out_of_range. lia.
  - intros Hi.
    destruct (GetTestingSample_in_range c dt lt wt sample index Hwf)
      as (d & l & Hd & Hl & Hget); [lia|].
    rewrite Htrain in Hd, Hl.
    exists d, l. repeat split; try assumption.
    rewrite Hdata, list_lookup_fmap, lookup_app_r in Hd by lia.
    rewrite Hlabels, list_lookup_fmap, lookup_app_r in Hl by lia.
    replace (N.to_nat (N.of_nat p + index) - length (pairs (valid_records tr)))%nat
      with (N.to_nat index) in Hd, Hl by lia.
    destruct (pairs (valid_records te) !! N.to_nat index) as [[d' l']|];
      [|discriminate].
    cbn in Hd, Hl. congruence.
  - intros Hi. apply GetTestingSample_out_of_range. lia.
Qed.

(** C3 (empty pool, at its failing input).  When neither stream offers a
    record the pool has length zero, and the constructor's read of the
    first data tensor is an access outside it: the construction does not
    succeed. *)
Theorem empty_pool_out_of_bounds (tr te : istream) (cl : N)
    (names : list string) (ef : dataset_localized_error_function) :
  record_count tr = O -> record_count te = O ->
  construct tr te cl names ef = OutOfBounds.
Proof. apply construct_no_records. Qed.

(** C4 (error-function names, at its failing input).  A configuration that
    names ["kitti"] and then ["default"]: the second directive assigns
    nothing, and the constructor is called with the KITTI weighting
    function, not with the default one. *)
Theorem localized_error_default_keeps_kitti :
  error_function
    (read_configuration
       ["localized_error kitti"%string; "localized_error default"%string])
  = name_KITTIData_LocalizedError
  /\ forall open_file : string -> istream,
       CreateFromConfiguration open_file
         ["localized_error kitti"%string; "localized_error default"%string]
       = construct (open_file EmptyString) (open_file EmptyString) 0 []
           KITTIData_LocalizedError.
Proof. split; reflexivity. Qed.

(** C5 (error-weight cache).  In a completed corpus the cache has one
    sample and one map, the width and height of the first data tensor, and
    the cell of every coordinate within that extent holds what the error
    function gives for it; with the default error function that is the
    weight 1 everywhere. *)
Theorem error_cache_weights (tr te : istream) (cl : N) (names : list string)
    (ef : dataset_localized_error_function) (c : TensorStreamDataset) :
  construct tr te cl names ef = Done c ->
  exists first_data,
    data_ c !! O = Some first_data
    /\ samples (error_cache c) = 1
    /\ maps (error_cache c) = 1
    /\ width (error_cache c) = width first_data
    /\ height (error_cache c) = height first_data
    /\ (forall x y,
          x < width first_data -> y < height first_data ->
          cell (error_cache c) x y = Some (ef x y))
    /\ (ef = DefaultLocalizedErrorFunction ->
        forall x y,
          x < width first_data -> y < height first_data ->
          cell (error_cache c) x y = Some (datum_of_int 1)).
Proof.
  intros Hdone. apply construct_done_inv in Hdone as Hcon.
  destruct (con_first _ _ _ _ _ _ Hcon)
    as (first_data & first_label & Hd & _ & _ & _ & Hcache).
  apply prepare_error_cache_inv in Hcache as Hfilled.
  pose proof Hfilled as (Hs & Hw & Hh & Hm & _ & _).
  exists first_data. repeat (split; [assumption|]).
  split.
  - intros x y Hx Hy. now apply (filled_cell _ _ _ _ _ _ Hfilled).
  - intros -> x y Hx Hy.
    now rewrite (filled_cell _ _ _ _ _ _ Hfilled).
Qed.

(** C6 (index past the training partition).  [GetTrainingSample] with an
    index equal to or greater than the number of training pairs returns
    failure without touching the pool: no slot is read, the three
    destination tensors and the corpus are handed back as they came.  The
    index one past the last training pair is such an index. *)
Theorem training_index_out_of_range (c : TensorStreamDataset)
    (dt lt wt : Tensor) (sample index : N) :
  GetTrainingSamples c <= index ->
  GetTrainingSample c dt lt wt sample index
  = Done (mkResult false dt lt wt c)
  /\ GetTrainingSample c dt lt wt sample (GetTrainingSamples c)
     = Done (mkResult false dt lt wt c).
Proof.
  intros Hi. split; apply GetTrainingSample_out_of_range; [assumption|].
  reflexivity.
Qed.

(** C7 (no testing records).  A corpus completed with a testing stream
    that offers no record does not support testing, and [GetTestingSample]
    fails at every index, leaving the destinations alone. *)
Theorem no_testing_records (tr te : istream) (cl : N) (names : list string)
    (ef : dataset_localized_error_function) (c : TensorStreamDataset) :
  construct tr te cl names ef = Done c ->
  record_count te = O ->
  SupportsTesting c = false
  /\ forall (dt lt wt : Tensor) (sample index : N),
       GetTestingSample c dt lt wt sample index
       = Done (mkResult false dt lt wt c).
Proof.
  intros Hdone Hte. apply construct_done_inv in Hdone as Hcon.
  assert (Hzero : tensor_count_testing_ c = 0).
  { rewrite (con_testing _ _ _ _ _ _ Hcon). unfold counted.
    now rewrite Hte. }
  split.
  - unfold SupportsTesting. now rewrite Hzero.
  - intros dt lt wt sample index. apply GetTestingSample_out_of_range.
    unfold GetTestingSamples. rewrite Hzero. apply N.le_0_l.
Qed.

(** C8 (one shared weight cache).  In a completed corpus the error cache
    after any sequence of training and testing requests is the cache the
    constructor left, and every request for an index within its partition,
    training or testing, receives in its weight destination the copy of
    that one cache, whatever the index. *)
Theorem weight_cache_shared (tr te : istream) (cl : N) (names : list string)
    (ef : dataset_localized_error_function) (c : TensorStreamDataset) :
  construct tr te cl names ef = Done c ->
  (forall rs : list request,
     exists c', serve_all c rs = Done c' /\ error_cache c' = error_cache c)
  /\ (forall (dt lt wt : Tensor) (sample index : N),
        index < GetTrainingSamples c ->
        exists res,
          GetTrainingSample c dt lt wt sample index = Done res
          /\ weight_tensor' res
             = (CopySample (error_cache c) 0 wt sample).2)
  /\ (forall (dt lt wt : Tensor) (sample index : N),
        index < GetTestingSamples c ->
        exists res,
          GetTestingSample c dt lt wt sample index = Done res
          /\ weight_tensor' res
             = (CopySample (error_cache c) 0 wt sample).2).
Proof.
  intros Hdone. apply construct_done_inv in Hdone as Hcon.
  pose proof (constructed_well_formed _ _ _ _ _ _ Hcon) as Hwf.
  repeat split.
  - intros rs. exists c. split; [now apply serve_all_keeps_corpus|reflexivity].
  - intros dt lt wt sample index Hi.
    destruct (GetTrainingSample_in_range c dt lt wt sample index Hwf Hi)
      as (d & l & _ & _ & ->).
    eexists. split; reflexivity.
  - intros dt lt wt sample index Hi.
    destruct (GetTestingSample_in_range c dt lt wt sample index Hwf Hi)
      as (d & l & _ & _ & ->).
    eexists. split; reflexivity.
Qed.

(** C9 (the accessors leave the corpus alone).  Every call of
    [GetTrainingSample] or [GetTestingSample] on a completed corpus
    returns, successful or not, and the corpus it leaves is the corpus it
    was called on: pool arrays, error cache, record counts and class
    metadata are the same. *)
Theorem accessors_keep_corpus (tr te : istream) (cl : N)
    (names : list string) (ef : dataset_localized_error_function)
    (c : TensorStreamDataset) :
  construct tr te cl names ef = Done c ->
  forall (dt lt wt : Tensor) (sample index : N),
    (exists res,
       GetTrainingSample c dt lt wt sample index = Done res
       /\ this' res = c)
    /\ (exists res,
          GetTestingSample c dt lt wt sample index = Done res
          /\ this' res = c)
    /\ forall res,
         GetTrainingSample c dt lt wt sample index = Done res
         \/ GetTestingSample c dt lt wt sample index = Done res ->
         data_ (this' res) = data_ c
         /\ labels_ (this' res) = labels_ c
         /\ error_cache (this' res) = error_cache c
         /\ tensor_count_training_ (this' res) = tensor_count_training_ c
         /\ tensor_count_testing_ (this' res) = tensor_count_testing_ c
         /\ tensors_ (this' res) = tensors_ c
         /\ classes_ (this' res) = classes_ c
         /\ class_names_ (this' res) = class_names_ c.
Proof.
  intros Hdone dt lt wt sample index.
  apply construct_done_inv in Hdone as Hcon.
  pose proof (constructed_well_formed _ _ _ _ _ _ Hcon) as Hwf.
  pose proof (serve_keeps_corpus c
                (training_request dt lt wt sample index) Hwf) as Htrain.
  pose proof (serve_keeps_corpus c
                (testing_request dt lt wt sample index) Hwf) as Htest.
  cbn [serve] in Htrain, Htest.
  split; [exact Htrain|]. split; [exact Htest|].
  intros res [Hres|Hres].
  - destruct Htrain as (res' & Hres' & Hsame).
    assert (res = res') by congruence. subst res'.
    rewrite Hsame. repeat split.
  - destruct Htest as (res' & Hres' & Hsame).
    assert (res = res') by congruence. subst res'.
    rewrite Hsame. repeat split.
Qed.

(** The copies of an accessor call within its partition, stated for the
    pool slot the call reads. *)
Lemma in_range_copies (c : TensorStreamDataset) (dt lt wt : Tensor)
    (sample index : N) (d l : Tensor) :
  (index < GetTrainingSamples c ->
   data_ c !! N.to_nat index = Some d ->
   labels_ c !! N.to_nat index = Some l ->
   GetTrainingSample c dt lt wt sample index
   = Done (copies c d l dt lt wt sample))
  /\ (index < GetTestingSamples c ->
      data_ c !! N.to_nat (wrap (GetTrainingSamples c + index)) = Some d ->
      labels_ c !! N.to_nat (wrap (GetTrainingSamples c + index)) = Some l ->
      GetTestingSample c dt lt wt sample index
      = Done (copies c d l dt lt wt sample)).
Proof.
  split; intros Hi Hd Hl.
  - unfold GetTrainingSample. unfold GetTrainingSamples in Hi.
    rewrite (proj2 (N.ltb_lt _ _) Hi). now apply copy_sample_from_done.
  - unfold GetTestingSample. unfold GetTestingSamples in Hi.
    rewrite (proj2 (N.ltb_lt _ _) Hi). now apply copy_sample_from_done.
Qed.

(** ** Further properties of the constructor *)

(** X1 (the counting loop).  With more iterations allowed than the stream
    has records ahead, the loop of the constructor has ended by its own
    tests: it returns the number of records met before the first
    zero-element record or the end of the data, in [unsigned int]
    arithmetic, and leaves the content of the stream as it was. *)
Theorem scan_counts_records (s : istream) (fuel : nat) :
  (remaining s < fuel)%nat ->
  count_loop fuel s 0 = count_tensors s 0
  /\ (count_tensors s 0).1 = wrap (N.of_nat (record_count s))
  /\ records (count_tensors s 0).2 = records s.
Proof.
  intros Hfuel. split; [now apply count_loop_enough|].
  split; [apply count_tensors_counts|apply count_tensors_records].
Qed.

(** X2 (count, rewind, replay).  For a stream opened at its start whose
    [2 p] valid records fit the counter: the scan returns [2 p]; after
    [clear] and [seekg] the replay of [p] pairs reads exactly the records
    that were counted, pair by pair, and a second scan returns the same
    count. *)
Theorem rewind_replays_counted_records (recs : list Tensor) (p : nat) :
  length (valid_records recs) = (2 * p)%nat ->
  N.of_nat (2 * p) < uint_modulus ->
  let scanned := count_tensors (open_stream recs) 0 in
  scanned.1 = N.of_nat (2 * p)
  /\ (replay (N.to_nat (scanned.1 / 2)) (seekg_beg (clear scanned.2))).1
     = pairs (valid_records recs)
  /\ (count_tensors (seekg_beg (clear scanned.2)) 0).1 = scanned.1.
Proof.
  intros Hlen Hfit. cbv zeta.
  pose proof (count_tensors_counts (open_stream recs)) as Hcount.
  pose proof (count_tensors_records (open_stream recs) 0) as Hrecs.
  fold (counted (open_stream recs)) in Hcount.
  rewrite (counted_open_stream recs _ Hlen Hfit) in Hcount.
  destruct (count_tensors (open_stream recs) 0) as [count s'].
  cbn [fst snd] in *. subst count.
  assert (Hrewound : seekg_beg (clear s') = rewound (open_stream recs))
    by (unfold seekg_beg, clear, rewound; cbn; now rewrite Hrecs).
  rewrite Hrewound, half_double, Nat2N.id.
  split; [reflexivity|]. split; [now apply replay_open_stream|].
  rewrite count_tensors_counts. fold (counted (rewound (open_stream recs))).
  change (rewound (open_stream recs)) with (open_stream recs).
  now apply counted_open_stream.
Qed.

(** X3 (odd counts).  When either stream holds an odd number of records
    the constructor stops with the fatal message of the first odd stream:
    the training stream is tested before the testing stream is scanned. *)
Theorem odd_count_is_fatal (tr te : istream) (cl : N) (names : list string)
    (ef : dataset_localized_error_function) :
  Nat.odd (record_count tr) || Nat.odd (record_count te) = true ->
  construct tr te cl names ef
  = Fatal (if Nat.odd (record_count tr)
           then "Odd training tensor count!"
           else "Odd testing tensor count!").
Proof.
  intros Hodd. destruct (Nat.odd (record_count tr)) eqn:Htr.
  - now apply construct_odd_training.
  - now apply construct_odd_testing.
Qed.

(** X4 (even counts fill the pool).  For streams opened at their start
    with [2 p] and [2 q] valid records, the counts within [unsigned int],
    at least one pair in all and tensor extents the loop counters reach:
    the constructor completes; the corpus reports [p] training and [q]
    testing samples, and its two arrays hold the data and the labels of the
    training pairs, in stream order, followed by those of the testing
    pairs. *)
Theorem even_streams_fill_the_pool (tr te : list Tensor) (p q : nat) (cl : N)
    (names : list string) (ef : dataset_localized_error_function) :
  length (valid_records tr) = (2 * p)%nat ->
  length (valid_records te) = (2 * q)%nat ->
  N.of_nat (2 * p + 2 * q) < uint_modulus ->
  (0 < p + q)%nat ->
  Forall countable_extent (tr ++ te) ->
  exists c,
    construct (open_stream tr) (open_stream te) cl names ef = Done c
    /\ GetTrainingSamples c = N.of_nat p
    /\ GetTestingSamples c = N.of_nat q
    /\ tensors_ c = N.of_nat (p + q)
    /\ data_ c = (pairs (valid_records tr) ++ pairs (valid_records te)).*1
    /\ labels_ c = (pairs (valid_records tr) ++ pairs (valid_records te)).*2.
Proof. apply construct_even_done. Qed.

(** X5 (what every completed corpus satisfies).  Whatever the streams, a
    corpus the constructor completes has even record counts, a pool of
    [GetTrainingSamples + GetTestingSamples] slots in both arrays, at least
    one and fewer than [2^31] of them, and the class count and class names
    it was given. *)
Theorem completed_corpus_invariants (tr te : istream) (cl : N)
    (names : list string) (ef : dataset_localized_error_function)
    (c : TensorStreamDataset) :
  construct tr te cl names ef = Done c ->
  tensor_count_training_ c mod 2 = 0
  /\ tensor_count_testing_ c mod 2 = 0
  /\ tensors_ c = GetTrainingSamples c + GetTestingSamples c
  /\ length (data_ c) = N.to_nat (tensors_ c)
  /\ length (labels_ c) = N.to_nat (tensors_ c)
  /\ 0 < tensors_ c
  /\ tensors_ c < 2 ^ 31
  /\ GetClasses c = cl
  /\ GetClassNames c = names.
Proof.
  intros Hdone. apply construct_done_inv in Hdone as Hcon.
  pose proof (constructed_well_formed _ _ _ _ _ _ Hcon)
    as (Hdata & Hlabels & _).
  destruct Hcon as [Hea Heb Hsum Ha Hb Ht _ _ Hcl Hnames Hfirst].
  destruct Hfirst as (d & l & Hd & _).
  apply lookup_lt_Some in Hd.
  unfold GetTrainingSamples, GetTestingSamples, GetClasses, GetClassNames.
  rewrite Hlabels, Hdata, Ha, Hb, Ht in *.
  repeat split; try assumption; try reflexivity.
  - lia.
  - clear - Hsum. change (2 ^ 31) with 2147483648. uint_arith.
Qed.

(** The pool of a corpus completed from two streams opened at their start,
    when the counts fit the counters. *)
Lemma opened_streams_pool (tr te : list Tensor) (p q : nat) (cl : N)
    (names : list string) (ef : dataset_localized_error_function)
    (c : TensorStreamDataset) :
  construct (open_stream tr) (open_stream te) cl names ef = Done c ->
  length (valid_records tr) = (2 * p)%nat ->
  length (valid_records te) = (2 * q)%nat ->
  N.of_nat (2 * p) < uint_modulus ->
  N.of_nat (2 * q) < uint_modulus ->
  data_ c = (pairs (valid_records tr) ++ pairs (valid_records te)).*1
  /\ labels_ c = (pairs (valid_records tr) ++ pairs (valid_records te)).*2.
Proof.
  intros Hdone Hp Hq Hfitp Hfitq.
  apply construct_done_inv in Hdone as Hcon.
  pose proof (con_data _ _ _ _ _ _ Hcon) as Hdata.
  pose proof (con_labels _ _ _ _ _ _ Hcon) as Hlabels.
  rewrite (counted_open_stream tr _ Hp Hfitp),
          (counted_open_stream te _ Hq Hfitq),
          !half_double, !Nat2N.id in Hdata, Hlabels.
  rewrite !replay_open_stream in Hdata, Hlabels by assumption.
  now split.
Qed.

(** X6 (no empty tensor in the pool).  A corpus completed from streams
    opened at their start, with counts that fit the counters, holds no
    zero-element tensor: the record that ends a count is never replayed
    into the pool. *)
Theorem pool_holds_no_empty_tensor (tr te : list Tensor) (p q : nat) (cl : N)
    (names : list string) (ef : dataset_localized_error_function)
    (c : TensorStreamDataset) :
  construct (open_stream tr) (open_stream te) cl names ef = Done c ->
  length (valid_records tr) = (2 * p)%nat ->
  length (valid_records te) = (2 * q)%nat ->
  N.of_nat (2 * p) < uint_modulus ->
  N.of_nat (2 * q) < uint_modulus ->
  Forall (fun t => elements t <> 0) (data_ c ++ labels_ c).
Proof.
  intros Hdone Hp Hq Hfitp Hfitq.
  destruct (opened_streams_pool tr te p q cl names ef c)
    as [-> ->]; try assumption.
  assert (Hpair : forall d l,
            (d, l) ∈ pairs (valid_records tr) ++ pairs (valid_records te) ->
            elements d <> 0 /\ elements l <> 0).
  { intros d l [Hin|Hin]%elem_of_app;
      apply pairs_elem in Hin as [Hd Hl];
      apply valid_records_elem in Hd as [_ Hd];
      apply valid_records_elem in Hl as [_ Hl]; now split. }
  apply Forall_forall. intros t [Hin|Hin]%elem_of_app;
    apply list_elem_of_fmap in Hin as ([d l] & -> & Hin);
    now apply Hpair in Hin.
Qed.


(** Whether the loops of the error cache end depends on the extent of the
    first data tensor alone. *)
Lemma prepare_error_cache_total (first : Tensor)
    (ef : dataset_localized_error_function) :
  prepare_error_cache first ef = Diverges
  \/ exists cache,
       prepare_error_cache first ef = Done cache
       /\ filled (width first) (height first) ef
            (height first * width first) cache.
Proof.
  destruct (N.lt_ge_cases (height first) uint_modulus) as [Hh|Hh].
  2: { left. apply prepare_error_cache_diverges. now left. }
  destruct (N.eq_0_gt_0_cases (height first)) as [Hzero|Hpos].
  - right. unfold prepare_error_cache, for_dimension.
    rewrite Hzero. cbn. eexists. split; [reflexivity|].
    unfold filled, Resize; cbn [samples width height maps cells].
    rewrite length_replicate.
    repeat (split; [reflexivity|]).
    split; [f_equal; lia|]. intros o Ho. lia.
  - destruct (N.lt_ge_cases (width first) uint_modulus) as [Hw|Hw].
    + right. now apply prepare_error_cache_done.
    + left. apply prepare_error_cache_diverges. now right.
Qed.

Lemma prepare_error_cache_any_function (first : Tensor)
    (ef ef' : dataset_localized_error_function) (cache : Tensor) :
  prepare_error_cache first ef = Done cache ->
  exists cache',
    prepare_error_cache first ef' = Done cache'
    /\ width cache' = width cache /\ height cache' = height cache.
Proof.
  intros Hdone.
  apply prepare_error_cache_inv in Hdone as Hfilled.
  destruct Hfilled as (_ & Hw & Hh & _).
  destruct (prepare_error_cache_total first ef') as [Hdiv|(c' & Hc' & Hf')].
  - exfalso.
    destruct (N.lt_ge_cases (height first) uint_modulus) as [Hlt|Hge].
    2: { rewrite prepare_error_cache_diverges in Hdone by (now left).
         discriminate. }
    destruct (N.eq_0_gt_0_cases (height first)) as [Hzero|Hpos].
    + unfold prepare_error_cache, for_dimension in Hdiv.
      rewrite Hzero in Hdiv. cbn in Hdiv. discriminate.
    + destruct (N.lt_ge_cases (width first) uint_modulus) as [Hlw|Hgw].
      * destruct (prepare_error_cache_done first ef' Hlw Hlt)
          as (c' & Hc' & _). congruence.
      * rewrite prepare_error_cache_diverges in Hdone by (now right).
        discriminate.
  - exists c'. destruct Hf' as (_ & Hw' & Hh' & _).
    split; [assumption|]. split; congruence.
Qed.

(** X8 (the error function, the class count and the class names touch
    nothing else).  If the constructor completes for one choice of error
    function, class count and class names, it completes on the same streams
    for every other choice, with the same record counts, the same pool, the
    same maps and a cache of the same extent. *)
Theorem pool_independent_of_weighting (tr te : istream) (cl cl' : N)
    (names names' : list string)
    (ef ef' : dataset_localized_error_function)
    (c : TensorStreamDataset) :
  construct tr te cl names ef = Done c ->
  exists c',
    construct tr te cl' names' ef' = Done c'
    /\ data_ c' = data_ c /\ labels_ c' = labels_ c
    /\ tensor_count_training_ c' = tensor_count_training_ c
    /\ tensor_count_testing_ c' = tensor_count_testing_ c
    /\ tensors_ c' = tensors_ c
    /\ input_maps_ c' = input_maps_ c /\ label_maps_ c' = label_maps_ c
    /\ width (error_cache c') = width (error_cache c)
    /\ height (error_cache c') = height (error_cache c)
    /\ classes_ c' = cl' /\ class_names_ c' = names'.
Proof.
  rewrite !construct_cases. cbv zeta.
  destruct (negb (counted tr mod 2 =? 0)); [discriminate|].
  destruct (negb (counted te mod 2 =? 0)); [discriminate|].
  destruct (uint_modulus <=? counted tr + counted te); [discriminate|].
  destruct (_ ++ _) as [|[first_data first_label] rest] eqn:Hpool;
    [discriminate|].
  destruct (prepare_error_cache first_data ef) as [cache| | |] eqn:Hcache;
    try discriminate.
  intros [= <-].
  destruct (prepare_error_cache_any_function _ _ ef' _ Hcache)
    as (cache' & -> & Hw & Hh).
  eexists. split; [reflexivity|]. unfold built.
  cbn [tensor_count_training_ tensor_count_testing_ tensors_ data_
       labels_ classes_ class_names_ input_maps_ label_maps_ error_cache].
  repeat split; assumption.
Qed.

(** X9 (testing is supported exactly when a testing sample exists).  On a
    completed corpus [SupportsTesting] holds exactly when
    [GetTestingSamples] is positive, and then the testing index 0 is served
    from the pool slot right after the training pairs. *)
Theorem testing_supported_iff_served (tr te : istream) (cl : N)
    (names : list string) (ef : dataset_localized_error_function)
    (c : TensorStreamDataset) :
  construct tr te cl names ef = Done c ->
  SupportsTesting c = (0 <? GetTestingSamples c)
  /\ (SupportsTesting c = true ->
      forall (dt lt wt : Tensor) (sample : N),
      exists d l,
        data_ c !! N.to_nat (GetTrainingSamples c) = Some d
        /\ labels_ c !! N.to_nat (GetTrainingSamples c) = Some l
        /\ GetTestingSample c dt lt wt sample 0
           = Done (copies c d l dt lt wt sample)).
Proof.
  intros Hdone. apply construct_done_inv in Hdone as Hcon.
  pose proof (constructed_well_formed _ _ _ _ _ _ Hcon) as Hwf.
  assert (Heven : tensor_count_testing_ c mod 2 = 0)
    by (rewrite (con_testing _ _ _ _ _ _ Hcon);
        apply (con_testing_even _ _ _ _ _ _ Hcon)).
  assert (Hsame : SupportsTesting c = (0 <? GetTestingSamples c)).
  { unfold SupportsTesting, GetTestingSamples.
    destruct (0 <? tensor_count_testing_ c) eqn:Hpos; symmetry.
    - apply N.ltb_lt in Hpos. apply N.ltb_lt. clear - Hpos Heven. uint_arith.
    - apply N.ltb_ge in Hpos. apply N.ltb_ge. clear - Hpos. uint_arith. }
  split; [exact Hsame|].
  intros Hsupp dt lt wt sample. rewrite Hsame in Hsupp.
  apply N.ltb_lt in Hsupp.
  destruct (GetTestingSample_in_range c dt lt wt sample 0 Hwf Hsupp)
    as (d & l & Hd & Hl & Hget).
  rewrite N.add_0_r in Hd, Hl. now exists d, l.
Qed.

(** X10 (every pool slot is served).  On a completed corpus every slot of
    the pool is read by an accessor call within its partition: a slot
    below [GetTrainingSamples] by [GetTrainingSample] at the slot's own
    index, a slot from there on by [GetTestingSample] at the slot's index
    less [GetTrainingSamples]. *)
Theorem every_slot_is_served (tr te : istream) (cl : N)
    (names : list string) (ef : dataset_localized_error_function)
    (c : TensorStreamDataset) (slot : N) (dt lt wt : Tensor) (sample : N) :
  construct tr te cl names ef = Done c ->
  slot < tensors_ c ->
  exists d l,
    data_ c !! N.to_nat slot = Some d
    /\ labels_ c !! N.to_nat slot = Some l
    /\ if slot <? GetTrainingSamples c
       then GetTrainingSample c dt lt wt sample slot
            = Done (copies c d l dt lt wt sample)
       else GetTestingSample c dt lt wt sample (slot - GetTrainingSamples c)
            = Done (copies c d l dt lt wt sample).
Proof.
  intros Hdone Hslot. apply construct_done_inv in Hdone as Hcon.
  pose proof (constructed_well_formed _ _ _ _ _ _ Hcon) as Hwf.
  assert (Htensors : tensors_ c = GetTrainingSamples c + GetTestingSamples c).
  { unfold GetTrainingSamples, GetTestingSamples.
    now rewrite (con_tensors _ _ _ _ _ _ Hcon),
                (con_training _ _ _ _ _ _ Hcon),
                (con_testing _ _ _ _ _ _ Hcon). }
  destruct (slot <? GetTrainingSamples c) eqn:Hside.
  - apply N.ltb_lt in Hside.
    destruct (GetTrainingSample_in_range c dt lt wt sample slot Hwf Hside)
      as (d & l & Hd & Hl & Hget).
    now exists d, l.
  - apply N.ltb_ge in Hside.
    destruct (GetTestingSample_in_range c dt lt wt sample
                (slot - GetTrainingSamples c) Hwf) as (d & l & Hd & Hl & Hget);
      [lia|].
    replace (GetTrainingSamples c + (slot - GetTrainingSamples c))
      with slot in Hd, Hl by lia.
    now exists d, l.
Qed.

(** ** Further properties of the configuration loader *)

Lemma prefix_head (a : ascii) (s line : string) :
  String.prefix (String a s) line = true ->
  exists rest, line = String a rest /\ String.prefix s rest = true.
Proof.
  destruct line as [|b rest]; cbn [String.prefix]; [discriminate|].
  destruct (ascii_dec a b) as [<-|]; [|discriminate].
  intros H. now exists rest.
Qed.

Lemma directive_value_prefix (line identifier : string) :
  String.prefix identifier line = false ->
  directive_value line identifier = None.
Proof. intros H. unfold directive_value. now rewrite H. Qed.

(** No line starts with two of the four identifiers. *)
Lemma classes_line (line : string) :
  StartsWithIdentifier line "classes" = true ->
  StartsWithIdentifier line "localized_error" = false
  /\ StartsWithIdentifier line "training" = false
  /\ StartsWithIdentifier line "testing" = false.
Proof.
  unfold StartsWithIdentifier. intros (rest & -> & _)%prefix_head.
  repeat split.
Qed.

Lemma localized_error_line (line : string) :
  StartsWithIdentifier line "localized_error" = true ->
  StartsWithIdentifier line "classes" = false
  /\ StartsWithIdentifier line "training" = false
  /\ StartsWithIdentifier line "testing" = false.
Proof.
  unfold StartsWithIdentifier. intros (rest & -> & _)%prefix_head.
  repeat split.
Qed.

Lemma training_line (line : string) :
  StartsWithIdentifier line "training" = true ->
  StartsWithIdentifier line "classes" = false
  /\ StartsWithIdentifier line "localized_error" = false
  /\ StartsWithIdentifier line "testing" = false.
Proof.
  unfold StartsWithIdentifier.
  intros (rest & -> & (rest' & -> & _)%prefix_head)%prefix_head.
  repeat split.
Qed.

Lemma testing_line (line : string) :
  StartsWithIdentifier line "testing" = true ->
  StartsWithIdentifier line "classes" = false
  /\ StartsWithIdentifier line "localized_error" = false
  /\ StartsWithIdentifier line "training" = false.
Proof.
  unfold StartsWithIdentifier.
  intros (rest & -> & (rest' & -> & _)%prefix_head)%prefix_head.
  repeat split.
Qed.

Lemma ParseStringIfPossible_other (line identifier value : string) :
  StartsWithIdentifier line identifier = false ->
  ParseStringIfPossible line identifier value = value.
Proof.
  intros H. unfold ParseStringIfPossible.
  now rewrite directive_value_prefix.
Qed.

(** One pass of the loop, with the fuel of the rest of the file restored. *)
Lemma read_configuration_step (line : string) (file : list string)
    (cfg : configuration) :
  read_configuration_from (line :: file) cfg
  = read_configuration_from (configuration_line line file cfg).2
      (configuration_line line file cfg).1.
Proof.
  unfold read_configuration_from. cbn [length configuration_loop].
  pose proof (configuration_line_file line file cfg) as Hlen.
  destruct (configuration_line line file cfg) as [cfg' file'].
  cbn [fst snd] in *. now apply configuration_loop_fuel.
Qed.

(** What the loop over the class names leaves: the names read so far, the
    next [n] lines of the file, and an empty name for every line the file
    does not have. *)
Lemma read_class_names_spec (n : nat) :
  forall file names,
    read_class_names n file names
    = (names ++ take n file ++ replicate (n - length file) EmptyString,
       drop n file).
Proof.
  induction n as [|n IH]; intros file names.
  - cbn. now rewrite app_nil_r.
  - destruct file as [|class_name file]; cbn [read_class_names].
    + rewrite IH, !take_nil, !drop_nil. cbn [length].
      rewrite !Nat.sub_0_r. cbn [replicate app].
      now rewrite <- app_assoc.
    + rewrite IH. cbn [take drop length]. rewrite <- app_assoc.
      reflexivity.
Qed.

(** X11 (unrecognised lines are ignored).  A line that starts with none of
    the four identifiers changes nothing: the configuration read from the
    file is the one read from the lines that follow. *)
Theorem unrecognised_line_is_ignored (line : string) (file : list string)
    (cfg : configuration) :
  StartsWithIdentifier line "classes" = false ->
  StartsWithIdentifier line "localized_error" = false ->
  StartsWithIdentifier line "training" = false ->
  StartsWithIdentifier line "testing" = false ->
  read_configuration_from (line :: file) cfg
  = read_configuration_from file cfg.
Proof.
  intros Hc He Htr Hte. rewrite read_configuration_step.
  unfold configuration_line. rewrite Hc, He.
  rewrite !ParseStringIfPossible_other by assumption.
  now destruct cfg.
Qed.

(** X12 (the class names follow the count).  A [classes] line of count [n]
    takes the next [n] lines of the file as class names, verbatim and in
    order, appended to the names read so far; when the file ends before
    that, every missing name is empty.  The lines taken are not read as
    directives: the loop goes on after them, with error function and file
    paths as they were. *)
Theorem classes_directive_reads_names (line : string) (file : list string)
    (cfg : configuration) (n : N) :
  StartsWithIdentifier line "classes" = true ->
  ParseCountIfPossible line "classes" (classes cfg) = n ->
  read_configuration_from (line :: file) cfg
  = read_configuration_from (drop (N.to_nat n) file)
      (mkConfiguration n
         (class_names cfg ++ take (N.to_nat n) file
            ++ replicate (N.to_nat n - length file) EmptyString)
         (error_function cfg) (training_file cfg) (testing_file cfg)).
Proof.
  intros Hc Hn. destruct (classes_line line Hc) as (He & Htr & Hte).
  rewrite read_configuration_step.
  unfold configuration_line. rewrite Hc, Hn, He.
  destruct (n =? 0) eqn:Hzero; cbn [negb].
  - apply N.eqb_eq in Hzero. rewrite Hzero. cbn [fst snd].
    rewrite !ParseStringIfPossible_other by assumption.
    cbn [classes class_names error_function training_file testing_file].
    change (N.to_nat 0) with O. cbn [take drop Nat.sub replicate].
    now rewrite !app_nil_r.
  - rewrite read_class_names_spec. cbn [fst snd].
    rewrite !ParseStringIfPossible_other by assumption. reflexivity.
Qed.

(** X13 (a [localized_error] line).  A line that starts with
    [localized_error] changes the selected error function only, by the
    branch on the name it gives; class count, class names and file paths
    stay. *)
Theorem localized_error_directive (line : string) (file : list string)
    (cfg : configuration) :
  StartsWithIdentifier line "localized_error" = true ->
  read_configuration_from (line :: file) cfg
  = read_configuration_from file
      (mkConfiguration (classes cfg) (class_names cfg)
         (select_error_function
            (ParseStringIfPossible line "localized_error" EmptyString)
            (error_function cfg))
         (training_file cfg) (testing_file cfg)).
Proof.
  intros He. destruct (localized_error_line line He) as (Hc & Htr & Hte).
  rewrite read_configuration_step.
  unfold configuration_line. rewrite Hc, He. cbn [fst snd].
  rewrite (ParseStringIfPossible_other line "training"),
          (ParseStringIfPossible_other line "testing") by assumption.
  reflexivity.
Qed.

(** X14 (the file paths).  A line that starts with [training] can change
    the training path only, a line that starts with [testing] the testing
    path only; a later such line replaces what an earlier one stored. *)
Theorem path_directives (line : string) (file : list string)
    (cfg : configuration) :
  (StartsWithIdentifier line "training" = true ->
   read_configuration_from (line :: file) cfg
   = read_configuration_from file
       (mkConfiguration (classes cfg) (class_names cfg) (error_function cfg)
          (ParseStringIfPossible line "training" (training_file cfg))
          (testing_file cfg)))
  /\ (StartsWithIdentifier line "testing" = true ->
      read_configuration_from (line :: file) cfg
      = read_configuration_from file
          (mkConfiguration (classes cfg) (class_names cfg)
             (error_function cfg) (training_file cfg)
             (ParseStringIfPossible line "testing" (testing_file cfg)))).
Proof.
  split.
  - intros Htr. destruct (training_line line Htr) as (Hc & He & Hte).
    rewrite read_configuration_step.
    unfold configuration_line. rewrite Hc, He. cbn [fst snd].
    now rewrite (ParseStringIfPossible_other line "testing").
  - intros Hte. destruct (testing_line line Hte) as (Hc & He & Htr).
    rewrite read_configuration_step.
    unfold configuration_line. rewrite Hc, He. cbn [fst snd].
    now rewrite (ParseStringIfPossible_other line "training").
Qed.

(** ** The content of the error cache *)

(** A filled cache is determined by its extent and the error function. *)
Lemma filled_unique (w h : N) (ef : dataset_localized_error_function)
    (c1 c2 : Tensor) :
  filled w h ef (h * w) c1 -> filled w h ef (h * w) c2 -> c1 = c2.
Proof.
  intros (Hs1 & Hw1 & Hh1 & Hm1 & Hlen1 & Hcells1)
         (Hs2 & Hw2 & Hh2 & Hm2 & Hlen2 & Hcells2).
  destruct c1 as [s1 w1 h1 m1 cells1], c2 as [s2 w2 h2 m2 cells2].
  cbn [samples width height maps cells] in *.
  subst s1 w1 h1 m1 s2 w2 h2 m2.
  f_equal. apply list_eq. intros i.
  destruct (decide (i < N.to_nat (w * h))%nat) as [Hi|Hi].
  - specialize (Hcells1 (N.of_nat i)). specialize (Hcells2 (N.of_nat i)).
    rewrite Nat2N.id in Hcells1, Hcells2.
    rewrite Hcells1, Hcells2 by lia. reflexivity.
  - rewrite (proj2 (lookup_ge_None cells1 i)),
            (proj2 (lookup_ge_None cells2 i)) by lia.
    reflexivity.
Qed.

(** The loops of the error cache end when there is no row to fill or both
    dimensions are within the counters. *)
Lemma prepare_error_cache_ends (first : Tensor)
    (ef : dataset_localized_error_function) :
  height first = 0
  \/ (width first < uint_modulus /\ height first < uint_modulus) ->
  exists cache,
    prepare_error_cache first ef = Done cache
    /\ filled (width first) (height first) ef
         (height first * width first) cache.
Proof.
  intros [Hzero|[Hw Hh]]; [|now apply prepare_error_cache_done].
  destruct (prepare_error_cache_total first ef) as [Hdiv|Hdone];
    [|exact Hdone].
  unfold prepare_error_cache, for_dimension in Hdiv.
  rewrite Hzero in Hdiv. cbn in Hdiv. discriminate.
Qed.

(** ** The loader and the constructor together *)

(** X16 (what the configuration reaches).  A corpus that
    [CreateFromConfiguration] completes reports the class count and the
    class names read from the configuration, and every cell of its error
    cache within the extent of the first data tensor holds the weight of
    the error function the configuration selected. *)
Theorem configuration_reaches_corpus (open_file : string -> istream)
    (file : list string) (c : TensorStreamDataset) :
  CreateFromConfiguration open_file file = Done c ->
  GetClasses c = classes (read_configuration file)
  /\ GetClassNames c = class_names (read_configuration file)
  /\ exists first_data,
       data_ c !! O = Some first_data
       /\ forall x y,
            x < width first_data -> y < height first_data ->
            cell (error_cache c) x y
            = Some (function_named
                      (error_function (read_configuration file)) x y).
Proof.
  unfold CreateFromConfiguration. intros Hdone.
  apply construct_done_inv in Hdone as Hcon.
  split; [apply (con_classes _ _ _ _ _ _ Hcon)|].
  split; [apply (con_class_names _ _ _ _ _ _ Hcon)|].
  destruct (con_first _ _ _ _ _ _ Hcon)
    as (first_data & first_label & Hd & _ & _ & _ & Hcache).
  apply prepare_error_cache_inv in Hcache as Hfilled.
  exists first_data. split; [assumption|].
  intros x y Hx Hy. now apply (filled_cell _ _ _ _ _ _ Hfilled).
Qed.

End Dataset.

(** ** A build of the dataset

    The development above holds for every cell type and every sample-copy
    primitive.  What follows fixes integer cells and a copy primitive, and
    runs the model on small corpora. *)

(** Modelled from the spec: the sample-copy primitive ([Tensor::CopySample],
    Tensor.cpp) is not part of the sources.  The copy fails on a shape
    mismatch between source and destination, or on a sample position
    neither tensor has, and then leaves the destination as it is;
    otherwise it overwrites the destination's sample at [target_sample]
    with the source's sample at [source_sample]. *)
Definition CopySample_by_shape {datum : Type}
    (source : Tensor datum) (source_sample : N)
    (target : Tensor datum) (target_sample : N) : bool * Tensor datum :=
  let size := width datum source * height datum source * maps datum source in
  if (width datum source =? width datum target)
     && (height datum source =? height datum target)
     && (maps datum source =? maps datum target)
     && (source_sample <? samples datum source)
     && (target_sample <? samples datum target)
  then
    (true,
     mkTensor datum (samples datum target) (width datum target)
       (height datum target) (maps datum target)
       (take (N.to_nat (target_sample * size)) (cells datum target)
        ++ take (N.to_nat size)
             (drop (N.to_nat (source_sample * size)) (cells datum source))
        ++ drop (N.to_nat ((target_sample + 1) * size))
             (cells datum target)))
  else (false, target).

(** A one-sample, one-map tensor of the given extent with every cell [v]. *)
Definition plane (w h : N) (v : Z) : Tensor Z :=
  mkTensor Z 1 w h 1 (replicate (N.to_nat (w * h)) v).

(** A destination buffer of [n] samples. *)
Definition buffer (n w h : N) : Tensor Z :=
  mkTensor Z n w h 1 (replicate (N.to_nat (n * w * h)) 0%Z).

Definition column_weight : dataset_localized_error_function Z :=
  fun x y => Z.of_N (10 * y + x).

Definition two_classes : list string := ["road"%string; "sky"%string].

Definition training_records : list (Tensor Z) := [plane 2 2 5; plane 2 2 6].

Definition testing_records : list (Tensor Z) := [plane 2 2 7; plane 2 2 8].

(** The corpus of one training pair and one testing pair. *)
Definition small_corpus : TensorStreamDataset Z :=
  mkDataset Z 2 two_classes 2 2 2
    [plane 2 2 5; plane 2 2 7] [plane 2 2 6; plane 2 2 8] 1 1
    (mkTensor Z 1 2 2 1 [0; 1; 10; 11]%Z).

(** The corpus of one training pair and no testing pair. *)
Definition training_only_corpus : TensorStreamDataset Z :=
  mkDataset Z 2 two_classes 2 0 1
    [plane 2 2 5] [plane 2 2 6] 1 1
    (mkTensor Z 1 2 2 1 [0; 1; 10; 11]%Z).

Lemma small_corpus_constructed :
  construct Z 0%Z (open_stream Z training_records)
    (open_stream Z testing_records) 2 two_classes column_weight
  = Done small_corpus.
Proof. reflexivity. Qed.

Lemma training_only_corpus_constructed :
  construct Z 0%Z (open_stream Z training_records) (open_stream Z [])
    2 two_classes column_weight
  = Done training_only_corpus.
Proof. reflexivity. Qed.

(** C10 (no copy is skipped).  Within its partition an accessor call runs
    all three copies: the flag it returns is the conjunction of the three
    results, and every destination is what its own copy left, whatever the
    other copies returned.  A call can therefore fail with a destination
    already written: on the small corpus, a label buffer of the wrong
    shape makes the call fail after the data buffer has been filled. *)
Theorem copies_all_attempted :
  (forall (datum : Type)
          (CopySample : Tensor datum -> N -> Tensor datum -> N
                        -> bool * Tensor datum)
          (c : TensorStreamDataset datum) (dt lt wt : Tensor datum)
          (sample index : N) (d l : Tensor datum),
     (index < GetTrainingSamples datum c ->
      data_ datum c !! N.to_nat index = Some d ->
      labels_ datum c !! N.to_nat index = Some l ->
      GetTrainingSample datum CopySample c dt lt wt sample index
      = Done (mkResult datum
                ((CopySample d 0 dt sample).1
                 && (CopySample l 0 lt sample).1
                 && (CopySample (error_cache datum c) 0 wt sample).1)
                (CopySample d 0 dt sample).2
                (CopySample l 0 lt sample).2
                (CopySample (error_cache datum c) 0 wt sample).2
                c))
     /\ (index < GetTestingSamples datum c ->
         data_ datum c !! N.to_nat (wrap (GetTrainingSamples datum c + index))
         = Some d ->
         labels_ datum c
           !! N.to_nat (wrap (GetTrainingSamples datum c + index))
         = Some l ->
         GetTestingSample datum CopySample c dt lt wt sample index
         = Done (mkResult datum
                   ((CopySample d 0 dt sample).1
                    && (CopySample l 0 lt sample).1
                    && (CopySample (error_cache datum c) 0 wt sample).1)
                   (CopySample d 0 dt sample).2
                   (CopySample l 0 lt sample).2
                   (CopySample (error_cache datum c) 0 wt sample).2
                   c)))
  /\ (exists res : sample_result Z,
        GetTrainingSample Z CopySample_by_shape small_corpus
          (buffer 4 2 2) (buffer 4 3 3) (buffer 4 2 2) 1 0
        = Done res
        /\ success Z res = false
        /\ data_tensor' Z res <> buffer 4 2 2
        /\ label_tensor' Z res = buffer 4 3 3).
Proof.
  split.
  - intros datum CopySample c dt lt wt sample index d l.
    exact (in_range_copies datum CopySample c dt lt wt sample index d l).
  - eexists. split; [reflexivity|].
    split; [reflexivity|]. split; [discriminate|reflexivity].
Qed.

(** ** The theorems at the small corpora *)

Definition quad : Tensor Z := buffer 4 2 2.

Lemma partition_ordering_witness :
  construct Z 0%Z (open_stream Z training_records)
    (open_stream Z testing_records) 2 two_classes column_weight
  = Done small_corpus
  /\ length (valid_records Z training_records) = (2 * 1)%nat
  /\ length (valid_records Z testing_records) = (2 * 1)%nat
  /\ N.of_nat (2 * 1) < uint_modulus
  /\ ((0 < N.of_nat 1 ->
       exists d l,
         pairs Z (valid_records Z training_records) !! N.to_nat 0
         = Some (d, l)
         /\ data_ Z small_corpus !! N.to_nat 0 = Some d
         /\ labels_ Z small_corpus !! N.to_nat 0 = Some l
         /\ GetTrainingSample Z CopySample_by_shape small_corpus
              quad quad quad 1 0
            = Done (copies Z CopySample_by_shape small_corpus d l
                      quad quad quad 1))
      /\ (N.of_nat 1 <= 0 ->
          GetTrainingSample Z CopySample_by_shape small_corpus
            quad quad quad 1 0
          = Done (mkResult Z false quad quad quad small_corpus))
      /\ (0 < N.of_nat 1 ->
          exists d l,
            pairs Z (valid_records Z testing_records) !! N.to_nat 0
            = Some (d, l)
            /\ data_ Z small_corpus !! N.to_nat (N.of_nat 1 + 0) = Some d
            /\ labels_ Z small_corpus !! N.to_nat (N.of_nat 1 + 0) = Some l
            /\ GetTestingSample Z CopySample_by_shape small_corpus
                 quad quad quad 1 0
               = Done (copies Z CopySample_by_shape small_corpus d l
                         quad quad quad 1))
      /\ (N.of_nat 1 <= 0 ->
          GetTestingSample Z CopySample_by_shape small_corpus
            quad quad quad 1 0
          = Done (mkResult Z false quad quad quad small_corpus))).
Proof.
  split; [reflexivity|]. split; [reflexivity|]. split; [reflexivity|].
  split; [reflexivity|].
  apply (partition_ordering Z 0%Z CopySample_by_shape
           training_records testing_records 1 1 2 two_classes
           column_weight small_corpus); reflexivity.
Defined.

Lemma empty_pool_out_of_bounds_witness :
  record_count Z (open_stream Z []) = O
  /\ construct Z 0%Z (open_stream Z []) (open_stream Z []) 2 two_classes
       column_weight
     = OutOfBounds.
Proof.
  split; [reflexivity|].
  apply (empty_pool_out_of_bounds Z 0%Z (open_stream Z [])
           (open_stream Z []) 2 two_classes column_weight); reflexivity.
Defined.

Lemma error_cache_weights_witness :
  construct Z 0%Z (open_stream Z training_records)
    (open_stream Z testing_records) 2 two_classes column_weight
  = Done small_corpus
  /\ exists first_data,
       data_ Z small_corpus !! O = Some first_data
       /\ samples Z (error_cache Z small_corpus) = 1
       /\ maps Z (error_cache Z small_corpus) = 1
       /\ width Z (error_cache Z small_corpus) = width Z first_data
       /\ height Z (error_cache Z small_corpus) = height Z first_data
       /\ (forall x y,
             x < width Z first_data -> y < height Z first_data ->
             cell Z (error_cache Z small_corpus) x y
             = Some (column_weight x y))
       /\ (column_weight = DefaultLocalizedErrorFunction Z (fun z => z) ->
           forall x y,
             x < width Z first_data -> y < height Z first_data ->
             cell Z (error_cache Z small_corpus) x y = Some 1%Z).
Proof.
  split; [reflexivity|].
  apply (error_cache_weights Z (fun z => z) 0%Z
           (open_stream Z training_records) (open_stream Z testing_records)
           2 two_classes column_weight small_corpus).
  reflexivity.
Defined.

Lemma training_index_out_of_range_witness :
  GetTrainingSamples Z small_corpus <= 1
  /\ GetTrainingSample Z CopySample_by_shape small_corpus quad quad quad 1 1
     = Done (mkResult Z false quad quad quad small_corpus)
  /\ GetTrainingSample Z CopySample_by_shape small_corpus quad quad quad 1
       (GetTrainingSamples Z small_corpus)
     = Done (mkResult Z false quad quad quad small_corpus).
Proof.
  split; [discriminate|].
  apply (training_index_out_of_range Z CopySample_by_shape small_corpus
           quad quad quad 1 1).
  discriminate.
Defined.

Lemma no_testing_records_witness :
  construct Z 0%Z (open_stream Z training_records) (open_stream Z [])
    2 two_classes column_weight
  = Done training_only_corpus
  /\ record_count Z (open_stream Z []) = O
  /\ SupportsTesting Z training_only_corpus = false
  /\ forall (dt lt wt : Tensor Z) (sample index : N),
       GetTestingSample Z CopySample_by_shape training_only_corpus
         dt lt wt sample index
       = Done (mkResult Z false dt lt wt training_only_corpus).
Proof.
  split; [reflexivity|]. split; [reflexivity|].
  apply (no_testing_records Z 0%Z CopySample_by_shape
           (open_stream Z training_records) (open_stream Z [])
           2 two_classes column_weight training_only_corpus); reflexivity.
Defined.

Lemma weight_cache_shared_witness :
  construct Z 0%Z (open_stream Z training_records)
    (open_stream Z testing_records) 2 two_classes column_weight
  = Done small_corpus
  /\ forall rs : list (request Z),
       exists c',
         serve_all Z CopySample_by_shape small_corpus rs = Done c'
         /\ error_cache Z c' = error_cache Z small_corpus.
Proof.
  split; [reflexivity|].
  apply (weight_cache_shared Z 0%Z CopySample_by_shape
           (open_stream Z training_records) (open_stream Z testing_records)
           2 two_classes column_weight small_corpus).
  reflexivity.
Defined.

Lemma accessors_keep_corpus_witness :
  construct Z 0%Z (open_stream Z training_records)
    (open_stream Z testing_records) 2 two_classes column_weight
  = Done small_corpus
  /\ exists res,
       GetTrainingSample Z CopySample_by_shape small_corpus
         quad quad quad 1 0
       = Done res
       /\ this' Z res = small_corpus.
Proof.
  split; [reflexivity|].
  apply (accessors_keep_corpus Z 0%Z CopySample_by_shape
           (open_stream Z training_records) (open_stream Z testing_records)
           2 two_classes column_weight small_corpus).
  reflexivity.
Defined.

Lemma copies_all_attempted_witness :
  0 < GetTrainingSamples Z small_corpus
  /\ data_ Z small_corpus !! N.to_nat 0 = Some (plane 2 2 5)
  /\ labels_ Z small_corpus !! N.to_nat 0 = Some (plane 2 2 6)
  /\ GetTrainingSample Z CopySample_by_shape small_corpus
       quad (buffer 4 3 3) quad 1 0
     = Done (mkResult Z
               ((CopySample_by_shape (plane 2 2 5) 0 quad 1).1
                && (CopySample_by_shape (plane 2 2 6) 0 (buffer 4 3 3) 1).1
                && (CopySample_by_shape (error_cache Z small_corpus) 0
                      quad 1).1)
               (CopySample_by_shape (plane 2 2 5) 0 quad 1).2
               (CopySample_by_shape (plane 2 2 6) 0 (buffer 4 3 3) 1).2
               (CopySample_by_shape (error_cache Z small_corpus) 0 quad 1).2
               small_corpus).
Proof.
  split; [reflexivity|]. split; [reflexivity|]. split; [reflexivity|].
  apply (proj1 (proj1 copies_all_attempted Z CopySample_by_shape
                  small_corpus quad (buffer 4 3 3) quad 1 0
                  (plane 2 2 5) (plane 2 2 6)));
    reflexivity.
Defined.

(** ** Runs of the model *)

Example odd_training_is_fatal :
  construct Z 0%Z
    (open_stream Z [plane 2 2 5; plane 2 2 6; plane 2 2 7])
    (open_stream Z testing_records) 2 two_classes column_weight
  = Fatal "Odd training tensor count!".
Proof. reflexivity. Qed.

Example odd_testing_is_fatal :
  construct Z 0%Z (open_stream Z training_records)
    (open_stream Z [plane 2 2 7]) 2 two_classes column_weight
  = Fatal "Odd testing tensor count!".
Proof. reflexivity. Qed.

(** A zero-element record ends the count; what follows it is not read. *)
Example sentinel_ends_the_count :
  construct Z 0%Z
    (open_stream Z [plane 2 2 5; plane 2 2 6; plane 0 0 0; plane 2 2 9])
    (open_stream Z []) 2 two_classes column_weight
  = Done training_only_corpus.
Proof. reflexivity. Qed.

(** A pool that holds testing pairs only is not empty. *)
Example testing_only_is_constructed :
  construct Z 0%Z (open_stream Z []) (open_stream Z testing_records)
    2 two_classes column_weight
  = Done (mkDataset Z 2 two_classes 0 2 1
            [plane 2 2 7] [plane 2 2 8] 1 1
            (mkTensor Z 1 2 2 1 [0; 1; 10; 11]%Z)).
Proof. reflexivity. Qed.

Example configuration_is_read :
  read_configuration
    ["classes 2"%string; "road"%string; "sky"%string;
     "localized_error kitti"%string; "training train.bin"%string;
     "testing test.bin"%string]
  = mkConfiguration 2 two_classes name_KITTIData_LocalizedError
      "train.bin" "test.bin".
Proof. reflexivity. Qed.

(** A class-name line is consumed as a name even when it reads like a
    directive. *)
Example class_name_is_no_directive :
  read_configuration ["classes 1"%string; "localized_error kitti"%string]
  = mkConfiguration 1 ["localized_error kitti"%string]
      name_DefaultLocalizedErrorFunction EmptyString EmptyString.
Proof. reflexivity. Qed.

Example default_alone_is_default :
  error_function (read_configuration ["localized_error default"%string])
  = name_DefaultLocalizedErrorFunction.
Proof. reflexivity. Qed.

(** An unrecognised name after ["kitti"] does reset the function; the name
    ["default"] in the same place does not. *)
Example unknown_after_kitti_is_default :
  error_function
    (read_configuration
       ["localized_error kitti"%string; "localized_error uniform"%string])
  = name_DefaultLocalizedErrorFunction.
Proof. reflexivity. Qed.

(** ** The unwritten cells *)

Lemma prepare_error_cache_fresh (datum : Type) (fresh1 fresh2 : datum)
    (first : Tensor datum) (ef : dataset_localized_error_function datum) :
  prepare_error_cache datum fresh1 first ef
  = prepare_error_cache datum fresh2 first ef.
Proof.
  destruct (N.eq_0_gt_0_cases (height datum first)) as [Hzero|Hpos].
  - destruct (prepare_error_cache_ends datum fresh1 first ef)
      as (c1 & -> & Hf1); [now left|].
    destruct (prepare_error_cache_ends datum fresh2 first ef)
      as (c2 & -> & Hf2); [now left|].
    f_equal. eapply filled_unique; eassumption.
  - destruct (N.lt_ge_cases (height datum first) uint_modulus) as [Hh|Hh].
    2: { rewrite !prepare_error_cache_diverges by (now left).
         reflexivity. }
    destruct (N.lt_ge_cases (width datum first) uint_modulus) as [Hw|Hw].
    2: { rewrite !prepare_error_cache_diverges by (now right).
         reflexivity. }
    destruct (prepare_error_cache_ends datum fresh1 first ef)
      as (c1 & -> & Hf1); [now right|].
    destruct (prepare_error_cache_ends datum fresh2 first ef)
      as (c2 & -> & Hf2); [now right|].
    f_equal. eapply filled_unique; eassumption.
Qed.

(** X15 (no unwritten cell is ever seen).  The cache is resized and then
    written cell by cell; the constructor gives the same result whatever
    the cells of the fresh allocation held, so no cell of the cache keeps
    a value the error function did not give. *)
Theorem fresh_cells_never_show (datum : Type) (fresh1 fresh2 : datum)
    (tr te : istream datum) (cl : N) (names : list string)
    (ef : dataset_localized_error_function datum) :
  construct datum fresh1 tr te cl names ef
  = construct datum fresh2 tr te cl names ef.
Proof.
  rewrite !construct_cases. cbv zeta.
  destruct (negb (counted datum tr mod 2 =? 0)); [reflexivity|].
  destruct (negb (counted datum te mod 2 =? 0)); [reflexivity|].
  destruct (uint_modulus <=? counted datum tr + counted datum te);
    [reflexivity|].
  destruct (_ ++ _) as [|[first_data first_label] rest]; [reflexivity|].
  rewrite (prepare_error_cache_fresh datum fresh1 fresh2).
  reflexivity.
Qed.

(** ** The further properties at concrete inputs *)

Definition three_records : list (Tensor Z) :=
  [plane 2 2 5; plane 2 2 6; plane 2 2 7].

Definition initial_configuration : configuration :=
  mkConfiguration 0 [] name_DefaultLocalizedErrorFunction
    EmptyString EmptyString.

Lemma scan_counts_records_witness :
  (remaining Z (open_stream Z training_records) < 5)%nat
  /\ count_loop Z 5 (open_stream Z training_records) 0
     = count_tensors Z (open_stream Z training_records) 0
  /\ (count_tensors Z (open_stream Z training_records) 0).1
     = wrap (N.of_nat (record_count Z (open_stream Z training_records)))
  /\ records Z (count_tensors Z (open_stream Z training_records) 0).2
     = records Z (open_stream Z training_records).
Proof.
  split; [cbn; lia|].
  apply (scan_counts_records Z (open_stream Z training_records) 5).
  cbn; lia.
Defined.

Lemma rewind_replays_counted_records_witness :
  length (valid_records Z training_records) = (2 * 1)%nat
  /\ N.of_nat (2 * 1) < uint_modulus
  /\ (count_tensors Z (open_stream Z training_records) 0).1
     = N.of_nat (2 * 1)
  /\ (replay Z
        (N.to_nat ((count_tensors Z (open_stream Z training_records) 0).1 / 2))
        (seekg_beg Z
           (clear Z (count_tensors Z (open_stream Z training_records) 0).2))).1
     = pairs Z (valid_records Z training_records)
  /\ (count_tensors Z
        (seekg_beg Z
           (clear Z (count_tensors Z (open_stream Z training_records) 0).2))
        0).1
     = (count_tensors Z (open_stream Z training_records) 0).1.
Proof.
  split; [reflexivity|]. split; [reflexivity|].
  apply (rewind_replays_counted_records Z training_records 1); reflexivity.
Defined.

Lemma odd_count_is_fatal_witness :
  Nat.odd (record_count Z (open_stream Z training_records))
  || Nat.odd (record_count Z (open_stream Z three_records)) = true
  /\ construct Z 0%Z (open_stream Z training_records)
       (open_stream Z three_records) 2 two_classes column_weight
     = Fatal (if Nat.odd (record_count Z (open_stream Z training_records))
              then "Odd training tensor count!"
              else "Odd testing tensor count!").
Proof.
  split; [reflexivity|].
  apply (odd_count_is_fatal Z 0%Z (open_stream Z training_records)
           (open_stream Z three_records) 2 two_classes column_weight).
  reflexivity.
Defined.

Lemma even_streams_fill_the_pool_witness :
  length (valid_records Z training_records) = (2 * 1)%nat
  /\ length (valid_records Z testing_records) = (2 * 1)%nat
  /\ N.of_nat (2 * 1 + 2 * 1) < uint_modulus
  /\ (0 < 1 + 1)%nat
  /\ Forall (countable_extent Z) (training_records ++ testing_records)
  /\ exists c,
       construct Z 0%Z (open_stream Z training_records)
         (open_stream Z testing_records) 2 two_classes column_weight
       = Done c
       /\ GetTrainingSamples Z c = N.of_nat 1
       /\ GetTestingSamples Z c = N.of_nat 1
       /\ tensors_ Z c = N.of_nat (1 + 1)
       /\ data_ Z c
          = (pairs Z (valid_records Z training_records)
             ++ pairs Z (valid_records Z testing_records)).*1
       /\ labels_ Z c
          = (pairs Z (valid_records Z training_records)
             ++ pairs Z (valid_records Z testing_records)).*2.
Proof.
  assert (Hext : Forall (countable_extent Z)
                   (training_records ++ testing_records))
    by (repeat constructor).
  split; [reflexivity|]. split; [reflexivity|]. split; [reflexivity|].
  split; [lia|]. split; [exact Hext|].
  apply (even_streams_fill_the_pool Z 0%Z training_records testing_records
           1 1 2 two_classes column_weight);
    [reflexivity|reflexivity|reflexivity|lia|exact Hext].
Defined.

Lemma completed_corpus_invariants_witness :
  construct Z 0%Z (open_stream Z training_records)
    (open_stream Z testing_records) 2 two_classes column_weight
  = Done small_corpus
  /\ tensors_ Z small_corpus
     = GetTrainingSamples Z small_corpus + GetTestingSamples Z small_corpus.
Proof.
  split; [reflexivity|].
  apply (completed_corpus_invariants Z 0%Z
           (open_stream Z training_records) (open_stream Z testing_records)
           2 two_classes column_weight small_corpus).
  reflexivity.
Defined.

Lemma pool_holds_no_empty_tensor_witness :
  construct Z 0%Z (open_stream Z training_records)
    (open_stream Z testing_records) 2 two_classes column_weight
  = Done small_corpus
  /\ length (valid_records Z training_records) = (2 * 1)%nat
  /\ length (valid_records Z testing_records) = (2 * 1)%nat
  /\ N.of_nat (2 * 1) < uint_modulus
  /\ Forall (fun t => elements Z t <> 0)
       (data_ Z small_corpus ++ labels_ Z small_corpus).
Proof.
  split; [reflexivity|]. split; [reflexivity|]. split; [reflexivity|].
  split; [reflexivity|].
  apply (pool_holds_no_empty_tensor Z 0%Z training_records testing_records
           1 1 2 two_classes column_weight small_corpus); reflexivity.
Defined.


Lemma pool_independent_of_weighting_witness :
  construct Z 0%Z (open_stream Z training_records)
    (open_stream Z testing_records) 2 two_classes column_weight
  = Done small_corpus
  /\ exists c',
       construct Z 0%Z (open_stream Z training_records)
         (open_stream Z testing_records) 5 []
         (DefaultLocalizedErrorFunction Z (fun z => z))
       = Done c'
       /\ data_ Z c' = data_ Z small_corpus
       /\ labels_ Z c' = labels_ Z small_corpus.
Proof.
  split; [reflexivity|].
  destruct (pool_independent_of_weighting Z 0%Z
              (open_stream Z training_records)
              (open_stream Z testing_records) 2 5 two_classes []
              column_weight (DefaultLocalizedErrorFunction Z (fun z => z))
              small_corpus)
    as (c' & Hdone & Hdata & Hlabels & _); [reflexivity|].
  exists c'. repeat split; assumption.
Defined.

Lemma testing_supported_iff_served_witness :
  construct Z 0%Z (open_stream Z training_records)
    (open_stream Z testing_records) 2 two_classes column_weight
  = Done small_corpus
  /\ SupportsTesting Z small_corpus
     = (0 <? GetTestingSamples Z small_corpus).
Proof.
  split; [reflexivity|].
  apply (testing_supported_iff_served Z 0%Z CopySample_by_shape
           (open_stream Z training_records) (open_stream Z testing_records)
           2 two_classes column_weight small_corpus).
  reflexivity.
Defined.

Lemma every_slot_is_served_witness :
  construct Z 0%Z (open_stream Z training_records)
    (open_stream Z testing_records) 2 two_classes column_weight
  = Done small_corpus
  /\ 1 < tensors_ Z small_corpus
  /\ exists d l,
       data_ Z small_corpus !! N.to_nat 1 = Some d
       /\ labels_ Z small_corpus !! N.to_nat 1 = Some l
       /\ if 1 <? GetTrainingSamples Z small_corpus
          then GetTrainingSample Z CopySample_by_shape small_corpus
                 quad quad quad 0 1
               = Done (copies Z CopySample_by_shape small_corpus d l
                         quad quad quad 0)
          else GetTestingSample Z CopySample_by_shape small_corpus
                 quad quad quad 0 (1 - GetTrainingSamples Z small_corpus)
               = Done (copies Z CopySample_by_shape small_corpus d l
                         quad quad quad 0).
Proof.
  split; [reflexivity|]. split; [reflexivity|].
  apply (every_slot_is_served Z 0%Z CopySample_by_shape
           (open_stream Z training_records) (open_stream Z testing_records)
           2 two_classes column_weight small_corpus 1 quad quad quad 0);
    reflexivity.
Defined.

Lemma unrecognised_line_is_ignored_witness :
  StartsWithIdentifier "# paths" "classes" = false
  /\ StartsWithIdentifier "# paths" "localized_error" = false
  /\ StartsWithIdentifier "# paths" "training" = false
  /\ StartsWithIdentifier "# paths" "testing" = false
  /\ read_configuration_from
       ["# paths"%string; "training train.bin"%string] initial_configuration
     = read_configuration_from ["training train.bin"%string]
         initial_configuration.
Proof.
  repeat (split; [reflexivity|]).
  apply (unrecognised_line_is_ignored "# paths"
           ["training train.bin"%string] initial_configuration);
    reflexivity.
Defined.

Lemma classes_directive_reads_names_witness :
  StartsWithIdentifier "classes 3" "classes" = true
  /\ ParseCountIfPossible "classes 3" "classes"
       (classes initial_configuration) = 3
  /\ read_configuration_from
       ["classes 3"%string; "road"%string; "training x"%string]
       initial_configuration
     = read_configuration_from
         (drop (N.to_nat 3) ["road"%string; "training x"%string])
         (mkConfiguration 3
            (class_names initial_configuration
             ++ take (N.to_nat 3) ["road"%string; "training x"%string]
             ++ replicate
                  (N.to_nat 3 - length ["road"%string; "training x"%string])
                  EmptyString)
            (error_function initial_configuration)
            (training_file initial_configuration)
            (testing_file initial_configuration)).
Proof.
  split; [reflexivity|]. split; [reflexivity|].
  apply (classes_directive_reads_names "classes 3"
           ["road"%string; "training x"%string] initial_configuration 3);
    reflexivity.
Defined.

Lemma localized_error_directive_witness :
  StartsWithIdentifier "localized_error kitti" "localized_error" = true
  /\ read_configuration_from ["localized_error kitti"%string]
       initial_configuration
     = read_configuration_from []
         (mkConfiguration (classes initial_configuration)
            (class_names initial_configuration)
            (select_error_function
               (ParseStringIfPossible "localized_error kitti"
                  "localized_error" EmptyString)
               (error_function initial_configuration))
            (training_file initial_configuration)
            (testing_file initial_configuration)).
Proof.
  split; [reflexivity|].
  apply (localized_error_directive "localized_error kitti" []
           initial_configuration).
  reflexivity.
Defined.

Lemma path_directives_witness :
  StartsWithIdentifier "training train.bin" "training" = true
  /\ read_configuration_from ["training train.bin"%string]
       initial_configuration
     = read_configuration_from []
         (mkConfiguration (classes initial_configuration)
            (class_names initial_configuration)
            (error_function initial_configuration)
            (ParseStringIfPossible "training train.bin" "training"
               (training_file initial_configuration))
            (testing_file initial_configuration)).
Proof.
  split; [reflexivity|].
  apply (proj1 (path_directives "training train.bin" []
                  initial_configuration)).
  reflexivity.
Defined.

Definition stored_files (path : string) : istream Z :=
  if String.eqb path "train.bin" then open_stream Z training_records
  else if String.eqb path "test.bin" then open_stream Z testing_records
  else open_stream Z [].

Definition stored_configuration : list string :=
  ["classes 2"%string; "road"%string; "sky"%string;
   "training train.bin"%string; "testing test.bin"%string].

(** The small corpus with the default weighting. *)
Definition uniform_corpus : TensorStreamDataset Z :=
  mkDataset Z 2 two_classes 2 2 2
    [plane 2 2 5; plane 2 2 7] [plane 2 2 6; plane 2 2 8] 1 1
    (mkTensor Z 1 2 2 1 [1; 1; 1; 1]%Z).

Lemma configuration_reaches_corpus_witness :
  CreateFromConfiguration Z (fun z => z) 0%Z column_weight stored_files
    stored_configuration
  = Done uniform_corpus
  /\ GetClasses Z uniform_corpus
     = classes (read_configuration stored_configuration)
  /\ GetClassNames Z uniform_corpus
     = class_names (read_configuration stored_configuration).
Proof.
  split; [reflexivity|].
  destruct (configuration_reaches_corpus Z (fun z => z) 0%Z column_weight
              stored_files stored_configuration uniform_corpus)
    as (Hclasses & Hnames & _); [reflexivity|].
  split; assumption.
Defined.
